(** * Open shop problem: the instance reader, the evaluation contract and the
    random solution generator of [openshop.py], embedded and verified.

    Python integers are unbounded, so they are [Z].  Text is [string] over
    8-bit characters (the Latin-1 range of Python's [str]); a line of the
    instance file is one [string], and the reader starts from the list that
    [f.readlines()] returned.  Exceptions are values of [exn] threaded through
    a small error monad, in the order Python evaluates the sub-expressions. *)

From stdpp Require Import base list strings gmap.
From Stdlib Require Import ZArith Lia Ascii.

Open Scope Z_scope.

(** ** Exceptions and the error monad *)

Inductive exn : Type :=
  | IndexError   (* list index out of range *)
  | ValueError.  (* invalid literal for int(), or x not in list *)

Inductive result (A : Type) : Type :=
  | Ok (a : A)
  | Raise (e : exn).
Arguments Ok {A} a.
Arguments Raise {A} e.

Global Instance result_ret : MRet result := λ A, Ok.
Global Instance result_bind : MBind result := λ A B k r,
  match r with
  | Ok a => k a
  | Raise e => Raise e
  end.
Global Instance result_fmap : FMap result := λ A B f r,
  match r with
  | Ok a => Ok (f a)
  | Raise e => Raise e
  end.

(** The append loops and [[f(x) for x in xs]] are [mapM] in this monad: left
    to right, the first exception ends the traversal. *)

(** ** Python built-ins used by the reader *)

Module Py.

(** [str.isspace] on the characters below 256. *)
Definition is_space (c : ascii) : bool :=
  let n := Z.of_nat (nat_of_ascii c) in
  ((9 <=? n) && (n <=? 13)) || ((28 <=? n) && (n <=? 32))
  || (n =? 133) || (n =? 160).

Fixpoint lstrip (s : string) : string :=
  match s with
  | EmptyString => EmptyString
  | String c s' => if is_space c then lstrip s' else s
  end.

Definition rstrip (s : string) : string :=
  String.rev (lstrip (String.rev s)).

(** [s.strip()] *)
Definition strip (s : string) : string := rstrip (lstrip s).

(** [s.split()]: maximal runs of non-blank characters.  [cur] is the token
    being read, last character first. *)
Definition flush (cur : string) (rest : list string) : list string :=
  match cur with
  | EmptyString => rest
  | _ => String.rev cur :: rest
  end.

Fixpoint split_go (cur : string) (s : string) : list string :=
  match s with
  | EmptyString => flush cur []
  | String c s' =>
      if is_space c then flush cur (split_go EmptyString s')
      else split_go (String c cur) s'
  end.

Definition split (s : string) : list string := split_go EmptyString s.

Definition digit_val (c : ascii) : option Z :=
  let n := Z.of_nat (nat_of_ascii c) in
  if (48 <=? n) && (n <=? 57) then Some (n - 48) else None.

(** Decimal digits with single underscores between digits.  [after_digit]
    tells whether the previous character was a digit. *)
Fixpoint digits (acc : Z) (after_digit : bool) (s : string) : option Z :=
  match s with
  | EmptyString => if after_digit then Some acc else None
  | String c s' =>
      match digit_val c with
      | Some d => digits (10 * acc + d) true s'
      | None =>
          if Ascii.eqb c "_"%char && after_digit then digits acc false s'
          else None
      end
  end.

(** [int(s)] in base 10: blanks around, an optional sign, digits.  The
    interpreter's configurable cap on the number of digits is not modelled. *)
Definition int (s : string) : result Z :=
  let parsed :=
    match strip s with
    | String "-"%char s' => Z.opp <$> digits 0 false s'
    | String "+"%char s' => digits 0 false s'
    | s' => digits 0 false s'
    end in
  match parsed with
  | Some z => Ok z
  | None => Raise ValueError
  end.

(** [l[i]], negative indices counting from the end. *)
Definition getitem {A} (l : list A) (i : Z) : result A :=
  let k := if i <? 0 then i + Z.of_nat (length l) else i in
  if k <? 0 then Raise IndexError
  else match l !! Z.to_nat k with
       | Some a => Ok a
       | None => Raise IndexError
       end.

(** [l.index(x)]: the first position holding [x]. *)
Fixpoint index_from (pos : Z) (l : list Z) (x : Z) : result Z :=
  match l with
  | [] => Raise ValueError
  | y :: l' => if y =? x then Ok pos else index_from (pos + 1) l' x
  end.

Definition index (l : list Z) (x : Z) : result Z := index_from 0 l x.

(** [range(a, b)] and [range(n)] *)
Definition range2 (a b : Z) : list Z := seqZ a (b - a).
Definition range (n : Z) : list Z := range2 0 n.

(** [sum(xs)] *)
Definition sum (xs : list Z) : Z := foldl Z.add 0 xs.

End Py.

(** ** The instance and its reader *)

Record Instance : Type := mkInstance {
  nb_jobs : Z;
  nb_machines : Z;
  processing_times : list (list Z);
  max_start : Z;
}.

Module OpenShopProblem.

(** [[line.strip() for line in lines if line.strip()]] *)
Definition clean_lines (raw : list string) : list string :=
  Py.strip <$> filter (λ line, Py.strip line ≠ EmptyString) raw.

(** [tokens = lines[1].split()], then [int(tokens[0])], [int(tokens[1])]. *)
Definition read_header (lines : list string) : result (Z * Z) :=
  tokens ← Py.split <$> Py.getitem lines 1;
  nb_jobs ← Py.getitem tokens 0 ≫= Py.int;
  nb_machines ← Py.getitem tokens 1 ≫= Py.int;
  mret (nb_jobs, nb_machines).

(** [[conv(int(x)) for x in lines[i].split()]] *)
Definition read_row (conv : Z → Z) (lines : list string) (i : Z)
  : result (list Z) :=
  line ← Py.getitem lines i;
  mapM (λ x, conv <$> Py.int x) (Py.split line).

(** The loop over [range(3, 3 + nb_jobs)]. *)
Definition read_times (lines : list string) (nb_jobs : Z)
  : result (list (list Z)) :=
  mapM (read_row id lines) (Py.range2 3 (3 + nb_jobs)).

(** The loop over [range(4 + nb_jobs, 4 + 2 * nb_jobs)], with [int(x) - 1]. *)
Definition read_machine_index (lines : list string) (nb_jobs : Z)
  : result (list (list Z)) :=
  mapM (read_row (λ v, v - 1) lines)
       (Py.range2 (4 + nb_jobs) (4 + 2 * nb_jobs)).

(** [pos = machine_index[j].index(m)], then
    [processing_times_task_order[j][pos]]. *)
Definition lookup_time (times_task_order machine_index : list (list Z))
    (j m : Z) : result Z :=
  indices ← Py.getitem machine_index j;
  pos ← Py.index indices m;
  times ← Py.getitem times_task_order j;
  Py.getitem times pos.

(** The reordering loops: [proc] for each job, appended in job order. *)
Definition reorder (nb_jobs nb_machines : Z)
    (times_task_order machine_index : list (list Z))
  : result (list (list Z)) :=
  mapM (λ j, mapM (lookup_time times_task_order machine_index j)
                  (Py.range nb_machines))
       (Py.range nb_jobs).

(** The header and the two tables, before reordering. *)
Definition read_tables (raw : list string)
  : result (Z * Z * list (list Z) * list (list Z)) :=
  let lines := clean_lines raw in
  '(nb_jobs, nb_machines) ← read_header lines;
  times_task_order ← read_times lines nb_jobs;
  machine_index ← read_machine_index lines nb_jobs;
  mret (nb_jobs, nb_machines, times_task_order, machine_index).

(** [_read_instance], from the lines that [f.readlines()] returned. *)
Definition _read_instance (raw : list string)
  : result (Z * Z * list (list Z) * Z) :=
  '(nb_jobs, nb_machines, times_task_order, machine_index) ← read_tables raw;
  processing_times ←
    reorder nb_jobs nb_machines times_task_order machine_index;
  let max_start := Py.sum (Py.sum <$> processing_times) in
  mret (nb_jobs, nb_machines, processing_times, max_start).

(** [__init__]: the four results become the instance's fields. *)
Definition __init__ (raw : list string) : result Instance :=
  '(nb_jobs, nb_machines, processing_times, max_start) ← _read_instance raw;
  mret (mkInstance nb_jobs nb_machines processing_times max_start).

End OpenShopProblem.

Import OpenShopProblem.

(** ** Candidate solutions

    The values a caller can hand to [evaluate_solution].  A dictionary is a
    finite map; only string keys are represented, since the method probes the
    keys ["jobs_order"], ["machines_order"] and ["objective"] and no other. *)

#[local] Set Warnings "-register-all".
Inductive pyval : Type :=
  | PNone
  | PBool (b : bool)
  | PInt (z : Z)
  | PStr (s : string)
  | PList (items : list pyval)
  | PDict (fields : gmap string pyval).

Definition penalty : Z := 1000000000.

(** A list of lists of integers as a Python value. *)
Definition of_orders (orders : list (list Z)) : pyval :=
  PList ((λ order, PList (PInt <$> order)) <$> orders).

(** ** The methods, over the object's state and the random source

    A method runs in a world made of the instance ([self]) and the state of
    the process-wide generator of module [random].  It returns a result or an
    exception, and the world it leaves behind. *)

Section Methods.

Context {G : Type}.
(** [random._randbelow(n)]: a draw, and the generator's next state. *)
Variable randbelow : Z → G → Z * G.

Record World : Type := mkWorld { self : Instance; gen : G }.

Definition M (A : Type) : Type := World → result A * World.

Global Instance M_ret : MRet M := λ A a w, (Ok a, w).
Global Instance M_bind : MBind M := λ A B k m w,
  match m w with
  | (Ok a, w') => k a w'
  | (Raise e, w') => (Raise e, w')
  end.

(** Reading [self.<field>]. *)
Definition attr {A} (field : Instance → A) : M A := λ w, (Ok (field (self w)), w).

(** A computation that touches neither the instance nor the generator. *)
Definition pure {A} (r : result A) : M A := λ w, (r, w).

Definition draw (n : Z) : M Z := λ w,
  let '(r, g) := randbelow n (gen w) in (Ok r, mkWorld (self w) g).

(** [x[i] = v] *)
Definition setitem {A} (x : list A) (i : Z) (v : A) : result (list A) :=
  let k := if i <? 0 then i + Z.of_nat (length x) else i in
  if (k <? 0) || (Z.of_nat (length x) <=? k) then Raise IndexError
  else Ok (<[Z.to_nat k := v]> x).

(** [x[i], x[j] = x[j], x[i]]: both reads, then the two stores in order. *)
Definition swap (x : list Z) (i j : Z) : result (list Z) :=
  xj ← Py.getitem x j;
  xi ← Py.getitem x i;
  x' ← setitem x i xj;
  setitem x' j xi.

(** [random.shuffle(x)] of the standard library:
    [for i in reversed(range(1, len(x))): j = randbelow(i + 1); swap]. *)
Fixpoint shuffle_loop (indices : list Z) (x : list Z) : M (list Z) :=
  match indices with
  | [] => mret x
  | i :: indices' =>
      j ← draw (i + 1);
      x' ← pure (swap x i j);
      shuffle_loop indices' x'
  end.

Definition shuffle (x : list Z) : M (list Z) :=
  shuffle_loop (reverse (Py.range2 1 (Z.of_nat (length x)))) x.

(** One of the two loops of [random_solution]: for each index of
    [range(self.<outer>)], a shuffled [list(range(self.<inner>))]. *)
Fixpoint orders_loop (inner : Instance → Z) (outer : list Z)
  : M (list (list Z)) :=
  match outer with
  | [] => mret []
  | _ :: outer' =>
      n ← attr inner;
      order ← shuffle (Py.range n);
      rest ← orders_loop inner outer';
      mret (order :: rest)
  end.

Definition random_solution : M pyval :=
  nm ← attr nb_machines;
  jobs_order ← orders_loop nb_jobs (Py.range nm);
  nj ← attr nb_jobs;
  machines_order ← orders_loop nb_machines (Py.range nj);
  mret (PDict (<["jobs_order" := of_orders jobs_order]>
               (<["machines_order" := of_orders machines_order]> ∅))).

(** [key in d] *)
Definition contains (d : gmap string pyval) (key : string) : bool :=
  bool_decide (is_Some (d !! key)).

Definition evaluate_solution (solution : pyval) : M pyval :=
  match solution with
  | PDict d =>
      if negb (contains d "jobs_order") || negb (contains d "machines_order")
      then mret (PInt penalty)
      else mret (default (PInt penalty) (d !! "objective"))
  | _ => mret (PInt penalty)
  end.

End Methods.

(** ** Specification vocabulary *)

(** [t[j][m]] *)
Definition at2 (t : list (list Z)) (j m : Z) : result Z :=
  row ← Py.getitem t j; Py.getitem row m.

(** A well-formed instance file: the fixed layout is there with integer
    tokens, every duration line has [nm] entries, and every machine line,
    once converted to 0-based indices, is a permutation of [range(nm)]. *)
Definition well_formed (raw : list string) (nj nm : Z)
    (times machine_index : list (list Z)) : Prop :=
  read_tables raw = Ok (nj, nm, times, machine_index)
  ∧ Forall (λ row, Z.of_nat (length row) = nm) times
  ∧ Forall (λ indices, indices ≡ₚ Py.range nm) machine_index.

(** The entry that the inner loop appends for job [j] and machine [m]. *)
Definition entry (times mi : list (list Z)) (j m : Z) : Z :=
  match lookup_time times mi j m with
  | Ok d => d
  | Raise _ => 0
  end.

(** The matrix that the reordering loops build on well-formed tables. *)
Definition reordered (nj nm : Z) (times mi : list (list Z)) : list (list Z) :=
  (λ j, entry times mi j <$> Py.range nm) <$> Py.range nj.

(** How many times [m] stands in a machine line. *)
Definition occurrences (m : Z) (indices : list Z) : nat :=
  length (filter (λ v, v = m) indices).

Definition is_int (token : string) : bool :=
  match Py.int token with Ok _ => true | Raise _ => false end.

(** A line on which every token is an integer literal. *)
Definition numeric (line : string) : bool := forallb is_int (Py.split line).

(** The positions of the lines that the two table loops read. *)
Definition table_position (nj : Z) (i : Z) : Prop :=
  3 ≤ i < 3 + nj ∨ 4 + nj ≤ i < 4 + 2 * nj.

(** The first position of a table loop over [range(a, b)] that is past the end
    of the file, when the file is too short for the loop. *)
Definition first_missing (lines : list string) (a : Z) : Z :=
  Z.max a (Z.of_nat (length lines)).

(** [solution] is a dictionary. *)
Definition is_record (solution : pyval) : Prop :=
  match solution with PDict _ => True | _ => False end.

(** [solution] is a dictionary that carries the key [field]. *)
Definition has_field (field : string) (solution : pyval) : Prop :=
  match solution with PDict d => is_Some (d !! field) | _ => False end.

(** A method leaves the instance as it found it, whatever it returns. *)
Definition preserves_self {G A} (m : M (G:=G) A) : Prop :=
  ∀ w : World (G:=G), self (m w).2 = self w.

(** Two worlds with the same counts and the same generator state. *)
Definition same_counts {G} (w1 w2 : World (G:=G)) : Prop :=
  nb_jobs (self w1) = nb_jobs (self w2)
  ∧ nb_machines (self w1) = nb_machines (self w2)
  ∧ gen w1 = gen w2.

(** A method whose outcome and whose effect on the generator depend on the
    instance through [nb_jobs] and [nb_machines] only. *)
Definition reads_counts_only {G A} (m : M (G:=G) A) : Prop :=
  ∀ w1 w2, same_counts w1 w2 →
    (m w1).1 = (m w2).1 ∧ same_counts (m w1).2 (m w2).2.

(** ** Sample inputs *)

Definition nl : string := String (ascii_of_nat 10) EmptyString.

Definition sample_2x2 : list string :=
  (λ l, l +:+ nl) <$>
  ["2 2 873654221 379008056"; "2 2 7 9"; ""; "processing times"; "3 5"; " 4  2 ";
   "  "; "machines"; "2 1"; "1 2"]%string.

Definition dup_sample : list string :=
  (λ l, l +:+ nl) <$> ["dup"; "1 2"; "times"; "3 5 7"; "machines"; "1 2 2"]%string.

Definition short_sample : list string :=
  (λ l, l +:+ nl) <$> ["short"; "1 1"; "times"; "5"]%string.

Definition short_bad_token_sample : list string :=
  (λ l, l +:+ nl) <$> ["short"; "1 1"; "times"; "abc"]%string.

Definition no_jobs_sample : list string :=
  (λ l, l +:+ nl) <$> ["empty"; "0 0"]%string.

Definition relabelled_2x2 : list string :=
  (λ l, l +:+ nl) <$>
  ["another title"; "2 2 7 9"; "durations:"; "3 5"; "4  2"; "machine ids:";
   "2 1"; "1 2"; "trailing notes"]%string.

Definition one_token_header_sample : list string :=
  (λ l, l +:+ nl) <$> ["title"; "3"; "times"; "1 2 3"]%string.

Definition identity_sample : list string :=
  (λ l, l +:+ nl) <$>
  ["identity"; "2 3"; "times"; "7 1 4"; "2 9 6"; "machines"; "1 2 3"; "1 2 3"]%string.

Definition short_times_sample : list string :=
  (λ l, l +:+ nl) <$>
  ["short row"; "1 3"; "times"; "7 1"; "machines"; "3 1 2"]%string.

Definition solved_with_junk : gmap string pyval :=
  <["jobs_order" := PNone]>
  (<["machines_order" := PStr "not a list"]>
  (<["objective" := PInt 42]> (<["solver" := PStr "tabu"]> ∅))).

Definition missing_machine_sample : list string :=
  (λ l, l +:+ nl) <$>
  ["missing"; "1 3"; "times"; "7 1 4"; "machines"; "1 2 2"]%string.

Definition long_header_sample : list string :=
  (λ l, l +:+ nl) <$>
  ["2 2 873654221 379008056"; "2 2 seed 12 bounds 9 11"; "processing times";
   "3 5"; "4  2"; "machines"; "2 1"; "1 2"]%string.

Definition other_matrix_world : World (G:=Z) :=
  mkWorld (mkInstance 2 2 [[9; 9]; [9; 9]] 36) 5.

(** A small congruential generator standing for the random source. *)
Definition lcg (n : Z) (g : Z) : Z * Z := (g mod n, (g * 7 + 3) mod 101).

Definition sample_world : World (G:=Z) :=
  mkWorld (mkInstance 2 2 [[5; 3]; [4; 2]] 14) 5.

Definition only_jobs_order : pyval :=
  PDict (<["jobs_order" := of_orders [[0; 1]; [1; 0]]]> ∅).

Definition solved : gmap string pyval :=
  <["jobs_order" := of_orders [[0; 1]; [1; 0]]]>
  (<["machines_order" := of_orders [[1; 0]; [0; 1]]]>
  (<["objective" := PInt 42]> ∅)).

(** ** The built-ins and the methods on sample inputs *)

Example strip_ex : Py.strip "  3 5	" = "3 5"%string.
Proof. reflexivity. Qed.
Example split_ex : Py.split " 12  7	-3 " = ["12"; "7"; "-3"]%string.
Proof. reflexivity. Qed.
Example int_ex1 : Py.int "1_000" = Ok 1000.
Proof. reflexivity. Qed.
Example int_ex2 : Py.int "-042" = Ok (-42).
Proof. reflexivity. Qed.
Example int_ex3 : Py.int "1__0" = Raise ValueError.
Proof. reflexivity. Qed.
Example int_ex4 : Py.int "abc" = Raise ValueError.
Proof. reflexivity. Qed.
Example getitem_ex : Py.getitem [10; 20; 30] (-1) = Ok 30.
Proof. reflexivity. Qed.
Example index_ex : Py.index [1; 0; 1] 1 = Ok 0.
Proof. reflexivity. Qed.
Example range_ex : Py.range2 3 5 = [3; 4] ∧ Py.range (-2) = [].
Proof. split; reflexivity. Qed.

Example sample_2x2_reads :
  _read_instance sample_2x2 = Ok (2, 2, [[5; 3]; [4; 2]], 14).
Proof. reflexivity. Qed.

Example random_solution_run :
  (random_solution lcg sample_world).1
  = Ok (PDict (<["jobs_order" := of_orders [[0; 1]; [1; 0]]]>
               (<["machines_order" := of_orders [[0; 1]; [1; 0]]]> ∅))).
Proof. vm_compute. reflexivity. Qed.

(** ** Lemmas on the error monad and the built-ins *)

Lemma mapM_nil {A B} (f : A → result B) : mapM f [] = Ok [].
Proof. reflexivity. Qed.

Lemma mapM_cons {A B} (f : A → result B) x l :
  mapM f (x :: l) = y ← f x; ys ← mapM f l; Ok (y :: ys).
Proof. reflexivity. Qed.

Lemma mapM_Ok_Forall2 {A B} (f : A → result B) l k :
  mapM f l = Ok k ↔ Forall2 (λ x y, f x = Ok y) l k.
Proof.
  revert k. induction l as [|x l IH]; intros k.
  - rewrite mapM_nil. split; [intros [= <-]; constructor | by inversion 1].
  - rewrite mapM_cons. destruct (f x) as [y|e] eqn:Hx; cbn.
    + destruct (mapM f l) as [ys|e] eqn:Hl; cbn.
      * split.
        -- intros [= <-]. constructor; [done | by apply IH].
        -- inversion 1 as [|? y' ? ys' Hy Hys]; subst.
           apply IH in Hys. congruence.
      * split; [done|]. inversion 1 as [|? y' ? ys' Hy Hys]; subst.
        apply IH in Hys. done.
    + split; [done|]. inversion 1; congruence.
Qed.

Lemma mapM_Ok_fmap {A B} (f : A → result B) (g : A → B) l :
  (∀ x, x ∈ l → f x = Ok (g x)) → mapM f l = Ok (g <$> l).
Proof.
  intros Hf. apply mapM_Ok_Forall2, Forall2_fmap_r, Forall_Forall2_diag.
  by apply Forall_forall.
Qed.

Lemma mapM_Ok_length {A B} (f : A → result B) l k :
  mapM f l = Ok k → length k = length l.
Proof. intros H%mapM_Ok_Forall2. symmetry. by eapply Forall2_length. Qed.

Lemma mapM_Raise {A B} (f : A → result B) l x e :
  x ∈ l → f x = Raise e → ∃ e', mapM f l = Raise e'.
Proof.
  intros Hx Hfx. destruct (mapM f l) as [k|e'] eqn:Hl; [|by eauto].
  apply mapM_Ok_Forall2 in Hl.
  apply list_elem_of_lookup in Hx as [i Hi].
  destruct (Forall2_lookup_l _ _ _ _ _ Hl Hi) as (y & _ & Hy). congruence.
Qed.

Lemma getitem_nonneg {A} (l : list A) (i : Z) :
  0 ≤ i →
  Py.getitem l i =
    match l !! Z.to_nat i with Some a => Ok a | None => Raise IndexError end.
Proof.
  intros Hi. unfold Py.getitem.
  destruct (Z.ltb_spec i 0) as [?|_]; [lia|].
  by destruct (Z.ltb_spec i 0) as [?|_]; [lia|].
Qed.

Lemma getitem_of_nat {A} (l : list A) (k : nat) :
  Py.getitem l (Z.of_nat k) =
    match l !! k with Some a => Ok a | None => Raise IndexError end.
Proof. rewrite getitem_nonneg by lia. by rewrite Nat2Z.id. Qed.

Lemma getitem_past_end {A} (l : list A) (i : Z) :
  Z.of_nat (length l) ≤ i → Py.getitem l i = Raise IndexError.
Proof.
  intros Hi. rewrite getitem_nonneg by lia.
  rewrite (lookup_ge_None_2 l (Z.to_nat i)); [done | lia].
Qed.

Lemma index_from_notin (pos : Z) (l : list Z) (x : Z) :
  x ∉ l → Py.index_from pos l x = Raise ValueError.
Proof.
  revert pos. induction l as [|y l IH]; intros pos Hx; [done|].
  apply not_elem_of_cons in Hx as [Hne Hx]. simpl.
  destruct (Z.eqb_spec y x) as [->|_]; [done | by apply IH].
Qed.

Lemma index_from_first (pos : Z) (l : list Z) (x : Z) (k : nat) :
  l !! k = Some x → (∀ q, (q < k)%nat → l !! q ≠ Some x) →
  Py.index_from pos l x = Ok (pos + Z.of_nat k).
Proof.
  revert pos k. induction l as [|y l IH]; intros pos k Hk Hfirst; [done|].
  simpl. destruct (Z.eqb_spec y x) as [->|Hne].
  - destruct k as [|k]; [f_equal; lia|].
    by destruct (Hfirst 0%nat ltac:(lia)).
  - destruct k as [|k]; [by simplify_eq/=|].
    rewrite (IH (pos + 1) k); [f_equal; lia | done |].
    intros q Hq. apply (Hfirst (S q)). lia.
Qed.

Lemma index_NoDup (l : list Z) (x : Z) (k : nat) :
  NoDup l → l !! k = Some x → Py.index l x = Ok (Z.of_nat k).
Proof.
  intros Hnd Hk. unfold Py.index. rewrite (index_from_first 0 l x k); [done..|].
  intros q Hq Hq'. pose proof (NoDup_lookup _ _ _ _ Hnd Hk Hq'). lia.
Qed.

Lemma elem_of_range (n x : Z) : x ∈ Py.range n ↔ 0 ≤ x < n.
Proof. unfold Py.range, Py.range2. rewrite elem_of_seqZ. lia. Qed.

Lemma length_range (n : Z) : length (Py.range n) = Z.to_nat n.
Proof. unfold Py.range, Py.range2. rewrite length_seqZ. f_equal. lia. Qed.

Lemma NoDup_range (n : Z) : NoDup (Py.range n).
Proof. apply NoDup_seqZ. Qed.

Lemma lookup_range (n : Z) (k : nat) :
  (k < Z.to_nat n)%nat → Py.range n !! k = Some (Z.of_nat k).
Proof.
  intros Hk. unfold Py.range, Py.range2. rewrite lookup_seqZ_lt by lia.
  f_equal; lia.
Qed.

(** ** The tables and the reordering *)

Lemma read_tables_inv raw nj nm times mi :
  read_tables raw = Ok (nj, nm, times, mi) →
  read_header (clean_lines raw) = Ok (nj, nm)
  ∧ read_times (clean_lines raw) nj = Ok times
  ∧ read_machine_index (clean_lines raw) nj = Ok mi.
Proof.
  unfold read_tables.
  destruct (read_header (clean_lines raw)) as [[nj' nm']|] eqn:Hh; [|done].
  cbn. destruct (read_times _ nj') as [t|] eqn:Ht; [|done].
  cbn. destruct (read_machine_index _ nj') as [i|] eqn:Hi; [|done].
  cbn. by intros [= -> -> -> ->].
Qed.

Lemma read_tables_lengths raw nj nm times mi :
  read_tables raw = Ok (nj, nm, times, mi) →
  length times = Z.to_nat nj ∧ length mi = Z.to_nat nj.
Proof.
  intros (_ & Ht & Hi)%read_tables_inv.
  apply mapM_Ok_length in Ht, Hi. unfold Py.range2 in *.
  rewrite length_seqZ in Ht, Hi. lia.
Qed.

Lemma lookup_time_at times mi (j p : nat) indices row m d :
  mi !! j = Some indices → times !! j = Some row → NoDup indices →
  indices !! p = Some m → row !! p = Some d →
  lookup_time times mi (Z.of_nat j) m = Ok d.
Proof.
  intros Hi Hr Hnd Hp Hd. unfold lookup_time.
  rewrite !getitem_of_nat, Hi, Hr. cbn.
  rewrite (index_NoDup _ _ p) by done. cbn.
  by rewrite getitem_of_nat, Hd.
Qed.

Section Reorder.

Variables (nj nm : Z) (times mi : list (list Z)).
Hypothesis times_rows : length times = Z.to_nat nj.
Hypothesis mi_rows : length mi = Z.to_nat nj.
Hypothesis times_cols : Forall (λ row, Z.of_nat (length row) = nm) times.
Hypothesis mi_perm : Forall (λ indices, indices ≡ₚ Py.range nm) mi.

Lemma job_rows (j : Z) :
  0 ≤ j < nj →
  ∃ indices row,
    mi !! Z.to_nat j = Some indices ∧ times !! Z.to_nat j = Some row
    ∧ indices ≡ₚ Py.range nm ∧ length row = Z.to_nat nm
    ∧ length indices = Z.to_nat nm.
Proof.
  intros Hj.
  destruct (lookup_lt_is_Some_2 mi (Z.to_nat j)) as [indices Hi]; [lia|].
  destruct (lookup_lt_is_Some_2 times (Z.to_nat j)) as [row Hr]; [lia|].
  exists indices, row. split_and!; try done.
  - apply (Forall_lookup_1 _ mi _ _ mi_perm Hi).
  - pose proof (Forall_lookup_1 _ times _ _ times_cols Hr) as Hl. simpl in Hl. lia.
  - rewrite (Forall_lookup_1 _ mi _ _ mi_perm Hi). apply length_range.
Qed.

(** Every probe of the inner loop succeeds, at the one position holding [m]. *)
Lemma lookup_time_wf (j m : Z) :
  0 ≤ j < nj → 0 ≤ m < nm →
  ∃ (p : nat) indices row d,
    mi !! Z.to_nat j = Some indices ∧ times !! Z.to_nat j = Some row
    ∧ indices !! p = Some m ∧ row !! p = Some d
    ∧ (∀ q, indices !! q = Some m → q = p)
    ∧ lookup_time times mi j m = Ok d.
Proof.
  intros Hj Hm.
  destruct (job_rows j Hj) as (indices & row & Hi & Hr & Hperm & Hlen & Hlen').
  assert (NoDup indices) as Hnd by (rewrite Hperm; apply NoDup_range).
  assert (m ∈ indices) as [p Hp]%list_elem_of_lookup
    by (rewrite Hperm; by apply elem_of_range).
  destruct (lookup_lt_is_Some_2 row p) as [d Hd].
  { apply lookup_lt_Some in Hp. lia. }
  exists p, indices, row, d. split_and!; try done.
  - intros q Hq. by eapply NoDup_lookup.
  - rewrite <- (Z2Nat.id j) at 1 by lia. by eapply lookup_time_at.
Qed.

Lemma reorder_wf :
  reorder nj nm times mi
  = Ok ((λ j, entry times mi j <$> Py.range nm) <$> Py.range nj).
Proof.
  unfold reorder. apply mapM_Ok_fmap. intros j Hj%elem_of_range.
  apply mapM_Ok_fmap. intros m Hm%elem_of_range.
  destruct (lookup_time_wf j m Hj Hm) as (?&?&?&d&_&_&_&_&_&Hd).
  unfold entry. by rewrite Hd.
Qed.

End Reorder.

Lemma lookup_reordered nj nm times mi (j : nat) :
  (j < Z.to_nat nj)%nat →
  reordered nj nm times mi !! j
  = Some (entry times mi (Z.of_nat j) <$> Py.range nm).
Proof.
  intros Hj. unfold reordered. by rewrite list_lookup_fmap, lookup_range.
Qed.

Lemma at2_lookup (t : list (list Z)) (j m : nat) row d :
  t !! j = Some row → row !! m = Some d →
  at2 t (Z.of_nat j) (Z.of_nat m) = Ok d.
Proof.
  intros Hj Hm. unfold at2. rewrite getitem_of_nat, Hj. cbn.
  by rewrite getitem_of_nat, Hm.
Qed.

Lemma at2_Ok_inv (t : list (list Z)) (j m d : Z) :
  0 ≤ j → 0 ≤ m → at2 t j m = Ok d →
  ∃ row, t !! Z.to_nat j = Some row ∧ row !! Z.to_nat m = Some d.
Proof.
  intros Hj Hm. unfold at2. rewrite getitem_nonneg by done.
  destruct (t !! Z.to_nat j) as [row|]; [|done]. cbn.
  rewrite getitem_nonneg by done.
  destruct (row !! Z.to_nat m) as [d'|] eqn:Hd; [|done].
  intros [= ->]. eauto.
Qed.

Lemma at2_reordered nj nm times mi (j m : Z) :
  0 ≤ j < nj → 0 ≤ m < nm →
  at2 (reordered nj nm times mi) j m = Ok (entry times mi j m).
Proof.
  intros Hj Hm.
  rewrite <- (Z2Nat.id j) at 1 by lia. rewrite <- (Z2Nat.id m) at 1 by lia.
  eapply at2_lookup; [apply lookup_reordered; lia|].
  rewrite list_lookup_fmap, lookup_range by lia. cbn.
  by rewrite !Z2Nat.id by lia.
Qed.

Lemma read_instance_wf raw nj nm times mi :
  well_formed raw nj nm times mi →
  _read_instance raw
  = Ok (nj, nm, reordered nj nm times mi,
        Py.sum (Py.sum <$> reordered nj nm times mi)).
Proof.
  intros (Htab & Hcols & Hperm).
  destruct (read_tables_lengths _ _ _ _ _ Htab) as [Ht Hi].
  unfold _read_instance. rewrite Htab. cbn.
  by rewrite (reorder_wf nj nm times mi Ht Hi Hcols Hperm).
Qed.

Lemma sample_2x2_well_formed :
  well_formed sample_2x2 2 2 [[3; 5]; [4; 2]] [[1; 0]; [0; 1]].
Proof.
  split_and!; [reflexivity | by repeat constructor |].
  repeat constructor.
Qed.

(** ** Claims on the reader *)

(** C1 (as amended).  On a well-formed instance file the reader returns a
    matrix in which, for every job [j] and machine [m], the entry at [j], [m]
    is the duration standing at the one position [p] of job [j]'s duration
    line where job [j]'s 0-based machine list holds [m].  The 2-job, 2-machine
    file with task-order durations [[3,5],[4,2]] and 1-based machine lines
    [[2,1],[1,2]] yields [[5,3],[4,2]], with [max_start = 14]. *)
Theorem C1_reindexing :
  (∀ raw nj nm times mi,
     well_formed raw nj nm times mi →
     ∃ pt ms,
       _read_instance raw = Ok (nj, nm, pt, ms)
       ∧ ∀ j m, 0 ≤ j < nj → 0 ≤ m < nm →
           ∃ p d,
             0 ≤ p
             ∧ at2 mi j p = Ok m
             ∧ (∀ q, 0 ≤ q → at2 mi j q = Ok m → q = p)
             ∧ at2 times j p = Ok d
             ∧ at2 pt j m = Ok d)
  ∧ read_tables sample_2x2 = Ok (2, 2, [[3; 5]; [4; 2]], [[1; 0]; [0; 1]])
  ∧ _read_instance sample_2x2 = Ok (2, 2, [[5; 3]; [4; 2]], 14).
Proof.
  split; [|by split].
  intros raw nj nm times mi Hwf.
  eexists _, _. split; [by apply read_instance_wf|].
  destruct Hwf as (Htab & Hcols & Hperm).
  destruct (read_tables_lengths _ _ _ _ _ Htab) as [Ht Hi].
  intros j m Hj Hm.
  destruct (lookup_time_wf nj nm times mi Ht Hi Hcols Hperm j m Hj Hm)
    as (p & indices & row & d & Hmi & Hrow & Hp & Hd & Huniq & Hlook).
  exists (Z.of_nat p), d. split_and!.
  - lia.
  - rewrite <- (Z2Nat.id j) by lia. by eapply at2_lookup.
  - intros q Hq (indices' & Hmi' & Hq')%at2_Ok_inv; [|lia|done].
    simplify_eq. apply Huniq in Hq'. lia.
  - rewrite <- (Z2Nat.id j) by lia. by eapply at2_lookup.
  - rewrite at2_reordered by done. unfold entry. by rewrite Hlook.
Qed.

Lemma C1_reindexing_witness :
  ∃ pt ms,
    _read_instance sample_2x2 = Ok (2, 2, pt, ms)
    ∧ ∀ j m, 0 ≤ j < 2 → 0 ≤ m < 2 →
        ∃ p d,
          0 ≤ p
          ∧ at2 [[1; 0]; [0; 1]] j p = Ok m
          ∧ (∀ q, 0 ≤ q → at2 [[1; 0]; [0; 1]] j q = Ok m → q = p)
          ∧ at2 [[3; 5]; [4; 2]] j p = Ok d
          ∧ at2 pt j m = Ok d.
Proof.
  apply (proj1 C1_reindexing sample_2x2 2 2 [[3; 5]; [4; 2]] [[1; 0]; [0; 1]]).
  split_and!; [reflexivity | by repeat constructor |].
  repeat constructor.
Defined.

(** C1, the scenario as the claim words it: the file does not read as
    [[5,3],[2,4]]; job 1 lists machine 1 first, so its durations [4,2] stay in
    place. *)
Lemma C1_scenario_counterexample :
  read_tables sample_2x2 = Ok (2, 2, [[3; 5]; [4; 2]], [[1; 0]; [0; 1]])
  ∧ ¬ ∃ ms, _read_instance sample_2x2 = Ok (2, 2, [[5; 3]; [2; 4]], ms).
Proof. split; [reflexivity|]. intros [ms Hms]. vm_compute in Hms. congruence. Qed.

Lemma reordered_row_perm nm times mi (j : nat) indices row :
  mi !! j = Some indices → times !! j = Some row →
  indices ≡ₚ Py.range nm → length row = length indices →
  entry times mi (Z.of_nat j) <$> Py.range nm ≡ₚ row.
Proof.
  intros Hi Hr Hperm Hlen. rewrite <- Hperm.
  assert (NoDup indices) as Hnd by (rewrite Hperm; apply NoDup_range).
  replace (entry times mi (Z.of_nat j) <$> indices) with row; [done|].
  apply list_eq. intros p. rewrite list_lookup_fmap.
  destruct (indices !! p) as [m|] eqn:Hp; cbn.
  - destruct (lookup_lt_is_Some_2 row p) as [d Hd].
    { apply lookup_lt_Some in Hp. lia. }
    rewrite Hd. unfold entry.
    by rewrite (lookup_time_at times mi j p indices row m d).
  - apply lookup_ge_None. apply lookup_ge_None in Hp. lia.
Qed.

Lemma reordered_rows raw nj nm times mi :
  well_formed raw nj nm times mi →
  Forall2 (≡ₚ) (reordered nj nm times mi) times.
Proof.
  intros (Htab & Hcols & Hperm).
  destruct (read_tables_lengths _ _ _ _ _ Htab) as [Ht Hi].
  apply Forall2_same_length_lookup_2.
  { unfold reordered. by rewrite length_fmap, length_range. }
  intros j prow row Hprow Hrow.
  assert (j < Z.to_nat nj)%nat as Hj by (apply lookup_lt_Some in Hrow; lia).
  rewrite lookup_reordered in Hprow by done. injection Hprow as <-.
  destruct (job_rows nj nm times mi Ht Hi Hcols Hperm (Z.of_nat j))
    as (indices & row' & Hmi & Hrow' & Hp & Hlen & Hlen'); [lia|].
  rewrite Nat2Z.id in Hmi, Hrow'. simplify_eq.
  eapply reordered_row_perm; [done.. | lia].
Qed.

Lemma sum_from (a : Z) (xs : list Z) : foldl Z.add a xs = a + Py.sum xs.
Proof.
  unfold Py.sum. revert a. induction xs as [|x xs IH]; intros a; simpl; [lia|].
  rewrite (IH (a + x)), (IH (0 + x)). lia.
Qed.

Lemma sum_cons (x : Z) (xs : list Z) : Py.sum (x :: xs) = x + Py.sum xs.
Proof. unfold Py.sum at 1. simpl. apply sum_from. Qed.

Lemma sum_app (xs ys : list Z) : Py.sum (xs ++ ys) = Py.sum xs + Py.sum ys.
Proof.
  induction xs as [|x xs IH]; [done|].
  rewrite <- app_comm_cons, !sum_cons, IH. lia.
Qed.

Lemma sum_rows (t : list (list Z)) : Py.sum (Py.sum <$> t) = Py.sum (concat t).
Proof.
  induction t as [|row t IH]; [done|].
  rewrite fmap_cons, sum_cons, IH. simpl. by rewrite sum_app.
Qed.

(** C7.  On a well-formed instance file, each row of the returned matrix is a
    rearrangement of that job's duration line: same entries, same
    multiplicities. *)
Theorem C7_rows_are_rearrangements raw nj nm times mi :
  well_formed raw nj nm times mi →
  ∃ pt ms,
    _read_instance raw = Ok (nj, nm, pt, ms)
    ∧ length pt = length times
    ∧ ∀ (j : nat) line, times !! j = Some line →
        ∃ row, pt !! j = Some row ∧ row ≡ₚ line.
Proof.
  intros Hwf. eexists _, _. split; [by apply read_instance_wf|].
  pose proof (reordered_rows _ _ _ _ _ Hwf) as Hrows.
  split; [by eapply Forall2_length|].
  intros j line Hline.
  destruct (Forall2_lookup_r _ _ _ _ _ Hrows Hline) as (row & Hrow & Hp).
  eauto.
Qed.

Lemma C7_rows_are_rearrangements_witness :
  ∃ pt ms,
    _read_instance sample_2x2 = Ok (2, 2, pt, ms)
    ∧ length pt = length [[3; 5]; [4; 2]]
    ∧ ∀ (j : nat) line, [[3; 5]; [4; 2]] !! j = Some line →
        ∃ row, pt !! j = Some row ∧ row ≡ₚ line.
Proof.
  apply (C7_rows_are_rearrangements sample_2x2 2 2 _ [[1; 0]; [0; 1]]).
  split_and!; [reflexivity | by repeat constructor |].
  repeat constructor.
Defined.

(** C5.  On a well-formed instance file with a non-negative job count and
    non-negative durations, the returned matrix has [nb_jobs] rows of
    [nb_machines] non-negative entries, and [max_start] is the sum of all its
    entries. *)
Theorem C5_shape_and_max_start raw nj nm times mi :
  well_formed raw nj nm times mi →
  0 ≤ nj →
  Forall (Forall (Z.le 0)) times →
  ∃ pt ms,
    _read_instance raw = Ok (nj, nm, pt, ms)
    ∧ Z.of_nat (length pt) = nj
    ∧ Forall (λ row, Z.of_nat (length row) = nm) pt
    ∧ Forall (Forall (Z.le 0)) pt
    ∧ ms = Py.sum (concat pt).
Proof.
  intros Hwf Hnj Hpos. eexists _, _. split; [by apply read_instance_wf|].
  pose proof (reordered_rows _ _ _ _ _ Hwf) as Hrows.
  destruct Hwf as (Htab & Hcols & Hperm).
  destruct (read_tables_lengths _ _ _ _ _ Htab) as [Ht Hi].
  split_and!.
  - rewrite (Forall2_length _ _ _ Hrows). lia.
  - eapply Forall2_Forall_l; [exact Hrows|].
    eapply Forall_impl; [exact Hcols|]. intros line Hline row Hrow. simpl in *.
    by rewrite Hrow.
  - eapply Forall2_Forall_l; [exact Hrows|].
    eapply Forall_impl; [exact Hpos|]. intros line Hline row Hrow. simpl in *.
    by rewrite Hrow.
  - apply sum_rows.
Qed.

Lemma C5_shape_and_max_start_witness :
  ∃ pt ms,
    _read_instance sample_2x2 = Ok (2, 2, pt, ms)
    ∧ Z.of_nat (length pt) = 2
    ∧ Forall (λ row, Z.of_nat (length row) = 2) pt
    ∧ Forall (Forall (Z.le 0)) pt
    ∧ ms = Py.sum (concat pt).
Proof.
  apply (C5_shape_and_max_start sample_2x2 2 2 [[3; 5]; [4; 2]] [[1; 0]; [0; 1]]).
  - split_and!; [reflexivity | by repeat constructor |]. repeat constructor.
  - lia.
  - repeat constructor; lia.
Defined.

(** ** Machine lines that are not permutations *)

Lemma occurrences_notin m indices : m ∉ indices → occurrences m indices = 0%nat.
Proof.
  unfold occurrences. induction indices as [|v l IH]; [done|].
  intros [Hne Hl]%not_elem_of_cons. rewrite filter_cons_False by done. auto.
Qed.

Lemma occurrences_NoDup m indices :
  NoDup indices → m ∈ indices → occurrences m indices = 1%nat.
Proof.
  unfold occurrences. induction 1 as [|v l Hv Hnd IH]; [by intros ?%elem_of_nil|].
  intros [->|Hm]%elem_of_cons.
  - rewrite filter_cons_True by done. simpl. f_equal. by apply occurrences_notin.
  - rewrite filter_cons_False; [auto|]. intros ->. done.
Qed.

(** On a line of exactly [nm] entries, an index of [range(nm)] that does not
    stand exactly once leaves some index of [range(nm)] out. *)
Lemma crowded_line_misses nm indices m :
  length indices = Z.to_nat nm → 0 ≤ m < nm → occurrences m indices ≠ 1%nat →
  ∃ m', 0 ≤ m' < nm ∧ m' ∉ indices.
Proof.
  intros Hlen Hm Hocc.
  destruct (decide (Forall (λ m', m' ∈ indices) (Py.range nm))) as [Hall|Hex].
  - destruct Hocc. apply occurrences_NoDup.
    + assert (Py.range nm ≡ₚ indices) as <-; [|apply NoDup_range].
      apply submseteq_length_Permutation.
      * apply NoDup_submseteq; [apply NoDup_range|].
        by apply Forall_forall.
      * rewrite length_range. lia.
    + rewrite Forall_forall in Hall. by apply Hall, elem_of_range.
  - apply not_Forall_Exists in Hex; [|apply _].
    apply Exists_exists in Hex as (m' & Hm' & Hout).
    exists m'. split; [by apply elem_of_range | done].
Qed.

Lemma reorder_missing nj nm times mi (j : nat) indices m :
  (j < Z.to_nat nj)%nat → mi !! j = Some indices →
  0 ≤ m < nm → m ∉ indices →
  ∃ e, reorder nj nm times mi = Raise e.
Proof.
  intros Hj Hi Hm Hout. unfold reorder.
  assert (lookup_time times mi (Z.of_nat j) m = Raise ValueError) as Hlook.
  { unfold lookup_time. rewrite !getitem_of_nat, Hi. cbn.
    unfold Py.index. by rewrite index_from_notin. }
  destruct (mapM_Raise (lookup_time times mi (Z.of_nat j)) (Py.range nm)
              m ValueError) as [e He]; [by apply elem_of_range | done |].
  eapply (mapM_Raise _ (Py.range nj) (Z.of_nat j)); [|exact He].
  apply elem_of_range. lia.
Qed.

(** C2 (as amended).  Construction fails whenever some job's machine line
    misses an index of [range(nb_machines)]; an index that does not stand
    exactly once is fatal whenever the line has exactly [nb_machines]
    entries, because it then leaves an index out. *)
Theorem C2_missing_index_is_fatal raw nj nm times mi (j : nat) indices m :
  read_tables raw = Ok (nj, nm, times, mi) →
  mi !! j = Some indices →
  0 ≤ m < nm →
  m ∉ indices
  ∨ (occurrences m indices ≠ 1%nat ∧ Z.of_nat (length indices) = nm) →
  ∃ e, __init__ raw = Raise e.
Proof.
  intros Htab Hi Hm Hbad.
  destruct (read_tables_lengths _ _ _ _ _ Htab) as [_ Hrows].
  assert (j < Z.to_nat nj)%nat as Hj by (apply lookup_lt_Some in Hi; lia).
  assert (∃ m', 0 ≤ m' < nm ∧ m' ∉ indices) as (m' & Hm' & Hout).
  { destruct Hbad as [Hout|[Hocc Hlen]]; [by eauto|].
    eapply crowded_line_misses; [lia | done..]. }
  destruct (reorder_missing nj nm times mi j indices m') as [e He]; [done..|].
  exists e. unfold __init__, _read_instance. rewrite Htab. cbn. by rewrite He.
Qed.

Lemma C2_missing_index_is_fatal_witness :
  ∃ e, __init__ ((λ l, l +:+ nl) <$>
         ["dup"; "1 2"; "times"; "3 5"; "machines"; "2 2"]%string) = Raise e.
Proof.
  apply (C2_missing_index_is_fatal _ 1 2 [[3; 5]] [[1; 1]] 0 [1; 1] 1).
  - reflexivity.
  - reflexivity.
  - lia.
  - right. split; [vm_compute; lia | reflexivity].
Defined.

(** C2 as worded: a machine line can repeat an index and the file still be
    accepted.  Here machine 1 stands twice on the line, every index of
    [range(nb_machines)] stands on it, and [index] takes the first
    occurrence. *)
Lemma C2_duplicate_accepted_counterexample :
  read_tables dup_sample = Ok (1, 2, [[3; 5; 7]], [[0; 1; 1]])
  ∧ occurrences 1 [0; 1; 1] = 2%nat
  ∧ __init__ dup_sample = Ok (mkInstance 1 2 [[3; 5]] 8).
Proof. split_and!; reflexivity. Qed.

(** ** Inputs shorter than the layout *)

Lemma mapM_all_Ok {A B} (f : A → result B) l :
  (∀ x, x ∈ l → ∃ y, f x = Ok y) → ∃ k, mapM f l = Ok k.
Proof.
  induction l as [|x l IH]; intros Hf; [by exists []|].
  destruct (Hf x) as [y Hy]; [by left|].
  destruct IH as [k Hk]; [intros; apply Hf; by right|].
  exists (y :: k). by rewrite mapM_cons, Hy, Hk.
Qed.

Lemma mapM_first_Raise {A B} (f : A → result B) l1 x l2 e :
  (∀ a, a ∈ l1 → ∃ b, f a = Ok b) → f x = Raise e →
  mapM f (l1 ++ x :: l2) = Raise e.
Proof.
  intros Hl1 Hx. induction l1 as [|a l1 IH]; cbn [app].
  - by rewrite mapM_cons, Hx.
  - destruct (Hl1 a) as [b Hb]; [by left|].
    rewrite mapM_cons, Hb. cbn. rewrite IH; [done|].
    intros; apply Hl1; by right.
Qed.

Lemma range2_split (a c b : Z) :
  a ≤ c < b → Py.range2 a b = Py.range2 a c ++ c :: Py.range2 (c + 1) b.
Proof.
  intros Hc. unfold Py.range2.
  replace (b - a) with ((c - a) + (b - c)) by lia.
  rewrite seqZ_app by lia. f_equal.
  replace (a + (c - a)) with c by lia.
  rewrite seqZ_cons by lia. do 2 f_equal; lia.
Qed.

Lemma elem_of_range2 (a b x : Z) : x ∈ Py.range2 a b ↔ a ≤ x < b.
Proof. unfold Py.range2. rewrite elem_of_seqZ. lia. Qed.

Lemma read_row_missing conv lines i :
  Z.of_nat (length lines) ≤ i → read_row conv lines i = Raise IndexError.
Proof. intros Hi. unfold read_row. by rewrite getitem_past_end. Qed.

Lemma read_row_numeric conv lines (i : Z) line :
  0 ≤ i → lines !! Z.to_nat i = Some line → numeric line = true →
  ∃ row, read_row conv lines i = Ok row.
Proof.
  intros Hi Hline Hnum. unfold read_row.
  rewrite getitem_nonneg, Hline by done. cbn.
  apply mapM_all_Ok. intros token Htok.
  unfold numeric in Hnum. rewrite forallb_forall in Hnum.
  apply list_elem_of_In, Hnum in Htok. unfold is_int in Htok.
  destruct (Py.int token) as [z|]; [|done]. by exists (conv z).
Qed.

Section TableLoop.

Variables (conv : Z → Z) (lines : list string) (a b : Z).
Hypothesis a_nonneg : 0 ≤ a.
Hypothesis nonempty : a < b.
Hypothesis short : Z.of_nat (length lines) < b.

Lemma table_loop_short :
  ∃ e, mapM (read_row conv lines) (Py.range2 a b) = Raise e.
Proof.
  apply (mapM_Raise _ _ (first_missing lines a) IndexError).
  - apply elem_of_range2. unfold first_missing. lia.
  - apply read_row_missing. unfold first_missing. lia.
Qed.

Lemma table_loop_short_numeric :
  (∀ (i : nat) line, a ≤ Z.of_nat i < b → lines !! i = Some line →
     numeric line = true) →
  mapM (read_row conv lines) (Py.range2 a b) = Raise IndexError.
Proof.
  intros Hnum. rewrite (range2_split a (first_missing lines a) b)
    by (unfold first_missing; lia).
  apply mapM_first_Raise.
  - intros i Hi%elem_of_range2. unfold first_missing in Hi.
    destruct (lookup_lt_is_Some_2 lines (Z.to_nat i)) as [line Hline]; [lia|].
    apply (read_row_numeric _ _ _ line); [lia | done |].
    apply (Hnum (Z.to_nat i)); [lia | done].
  - apply read_row_missing. unfold first_missing. lia.
Qed.

End TableLoop.

Lemma table_loop_full conv lines (a b : Z) :
  0 ≤ a → b ≤ Z.of_nat (length lines) →
  (∀ (i : nat) line, a ≤ Z.of_nat i < b → lines !! i = Some line →
     numeric line = true) →
  ∃ rows, mapM (read_row conv lines) (Py.range2 a b) = Ok rows.
Proof.
  intros Ha Hb Hnum. apply mapM_all_Ok. intros i Hi%elem_of_range2.
  destruct (lookup_lt_is_Some_2 lines (Z.to_nat i)) as [line Hline]; [lia|].
  apply (read_row_numeric _ _ _ line); [lia | done |].
  apply (Hnum (Z.to_nat i)); [lia | done].
Qed.

Lemma mapM_raise_kind {A B} (f : A → result B) l e e' :
  (∀ x e'', x ∈ l → f x = Raise e'' → e'' = e) →
  mapM f l = Raise e' → e' = e.
Proof.
  induction l as [|x l IH]; intros Hk; [done|]. rewrite mapM_cons.
  destruct (f x) as [y|ex] eqn:Hx; cbn.
  - destruct (mapM f l) as [ys|el] eqn:Hl; cbn; [done|].
    intros [= <-]. apply IH; [|done]. intros; eapply Hk; [by right | done].
  - intros [= <-]. eapply Hk; [by left | done].
Qed.

Lemma int_raise_kind token e : Py.int token = Raise e → e = ValueError.
Proof.
  unfold Py.int.
  destruct (match Py.strip token with
            | String "-"%char s' => Z.opp <$> Py.digits 0 false s'
            | String "+"%char s' => Py.digits 0 false s'
            | s' => Py.digits 0 false s'
            end); [done | by intros [= <-]].
Qed.

Lemma read_row_present_raise_kind conv lines (i : nat) line e :
  lines !! i = Some line →
  read_row conv lines (Z.of_nat i) = Raise e → e = ValueError.
Proof.
  intros Hline. unfold read_row. rewrite getitem_of_nat, Hline. cbn.
  apply mapM_raise_kind. intros token e' _.
  destruct (Py.int token) as [z|e''] eqn:Hint; [done|].
  intros [= <-]. by eapply int_raise_kind.
Qed.

Lemma read_row_not_numeric conv lines (i : nat) line :
  lines !! i = Some line → numeric line = false →
  read_row conv lines (Z.of_nat i) = Raise ValueError.
Proof.
  intros Hline Hnum.
  destruct (read_row conv lines (Z.of_nat i)) as [row|e] eqn:Hrow.
  - unfold read_row in Hrow. rewrite getitem_of_nat, Hline in Hrow. cbn in Hrow.
    apply mapM_Ok_Forall2 in Hrow.
    assert (numeric line = true) as Hyes; [|congruence].
    unfold numeric. apply forallb_forall.
    intros token [k Hk]%list_elem_of_In%list_elem_of_lookup.
    destruct (Forall2_lookup_l _ _ _ _ _ Hrow Hk) as (z & _ & Hz).
    unfold is_int. by destruct (Py.int token).
  - f_equal. by eapply read_row_present_raise_kind.
Qed.

Lemma mapM_app {A B} (f : A → result B) l1 l2 :
  mapM f (l1 ++ l2)
  = ys1 ← mapM f l1; ys2 ← mapM f l2; Ok (ys1 ++ ys2).
Proof.
  induction l1 as [|x l1 IH]; cbn [app].
  - rewrite mapM_nil. cbn. by destruct (mapM f l2).
  - rewrite !mapM_cons, IH. destruct (f x) as [y|]; cbn; [|done].
    destruct (mapM f l1) as [ys1|]; cbn; [|done].
    by destruct (mapM f l2).
Qed.

(** A table loop that meets a line holding a token that is not an integer
    stops on it with [ValueError]: the lines before it are there, so none of
    them can be missing. *)
Lemma table_loop_bad_token conv lines (a b : Z) (i : nat) line :
  0 ≤ a → a ≤ Z.of_nat i < b →
  lines !! i = Some line → numeric line = false →
  mapM (read_row conv lines) (Py.range2 a b) = Raise ValueError.
Proof.
  intros Ha Hi Hline Hnum.
  rewrite (range2_split a (Z.of_nat i) b) by done.
  rewrite mapM_app, mapM_cons, (read_row_not_numeric conv lines i line) by done.
  destruct (mapM (read_row conv lines) (Py.range2 a (Z.of_nat i)))
    as [rows|e] eqn:Hbefore; cbn.
  - done.
  - f_equal. eapply mapM_raise_kind; [|exact Hbefore].
    intros k e' Hk%elem_of_range2 Hrow. apply lookup_lt_Some in Hline.
    destruct (lookup_lt_is_Some_2 lines (Z.to_nat k)) as [line' Hl']; [lia|].
    rewrite <- (Z2Nat.id k) in Hrow by lia.
    by eapply read_row_present_raise_kind.
Qed.

(** C8 (as amended).  With fewer than 2 lines left after blank lines are
    dropped, the reader fails with an out-of-range error.  With a header that
    gives [nb_jobs ≥ 1] and fewer than [4 + 2 * nb_jobs] lines, the reader
    fails and returns no instance; the failure is the out-of-range error when
    every table line that is present holds integer tokens only, and the
    invalid-literal error when some table line that is present holds a token
    that is not an integer. *)
Theorem C8_short_input_fails (raw : list string) :
  ((length (clean_lines raw) < 2)%nat → _read_instance raw = Raise IndexError)
  ∧ ∀ nj nm,
      read_header (clean_lines raw) = Ok (nj, nm) →
      1 ≤ nj →
      Z.of_nat (length (clean_lines raw)) < 4 + 2 * nj →
      (∃ e, _read_instance raw = Raise e)
      ∧ ((∀ (i : nat) line,
            clean_lines raw !! i = Some line →
            table_position nj (Z.of_nat i) → numeric line = true) →
         _read_instance raw = Raise IndexError)
      ∧ ((∃ (i : nat) line,
            clean_lines raw !! i = Some line
            ∧ table_position nj (Z.of_nat i) ∧ numeric line = false) →
         _read_instance raw = Raise ValueError).
Proof.
  split.
  - intros Hlen. unfold _read_instance, read_tables, read_header.
    rewrite getitem_past_end; [reflexivity | lia].
  - intros nj nm Hh Hnj Hlen. unfold _read_instance, read_tables.
    rewrite Hh. cbn. unfold read_times, read_machine_index.
    split_and!.
    + destruct (Z.lt_ge_cases (Z.of_nat (length (clean_lines raw))) (3 + nj))
        as [Hshort|Hlong].
      * destruct (table_loop_short id (clean_lines raw) 3 (3 + nj))
          as [e He]; [lia..|]. exists e. by rewrite He.
      * destruct (mapM (read_row id _) (Py.range2 3 (3 + nj))) as [rows|e];
          [|by exists e]. cbn.
        destruct (table_loop_short (λ v, v - 1) (clean_lines raw)
                    (4 + nj) (4 + 2 * nj)) as [e He]; [lia..|].
        exists e. by rewrite He.
    + intros Hnum.
      destruct (Z.lt_ge_cases (Z.of_nat (length (clean_lines raw))) (3 + nj))
        as [Hshort|Hlong].
      * rewrite (table_loop_short_numeric id (clean_lines raw) 3 (3 + nj));
          [reflexivity | lia..|].
        intros i line Hi Hline. apply (Hnum i line Hline). left. lia.
      * destruct (table_loop_full id (clean_lines raw) 3 (3 + nj))
          as [rows ->]; [lia.. | |].
        { intros i line Hi Hline. apply (Hnum i line Hline). left. lia. }
        cbn.
        rewrite (table_loop_short_numeric (λ v, v - 1) (clean_lines raw)
                   (4 + nj) (4 + 2 * nj)); [reflexivity | lia..|].
        intros i line Hi Hline. apply (Hnum i line Hline). right. lia.
    + intros (i & line & Hline & [Hpos|Hpos] & Hbad).
      * by rewrite (table_loop_bad_token id (clean_lines raw) 3 (3 + nj) i line)
          by (done || lia).
      * destruct (mapM (read_row id (clean_lines raw)) (Py.range2 3 (3 + nj)))
          as [rows|e] eqn:Hfirst; cbn.
        -- by rewrite (table_loop_bad_token (λ v, v - 1) (clean_lines raw)
                         (4 + nj) (4 + 2 * nj) i line) by (done || lia).
        -- f_equal. eapply mapM_raise_kind; [|exact Hfirst].
           intros k e' Hk%elem_of_range2 Hrow.
           pose proof (lookup_lt_Some _ _ _ Hline) as Hi.
           destruct (lookup_lt_is_Some_2 (clean_lines raw) (Z.to_nat k))
             as [line' Hl']; [lia|].
           rewrite <- (Z2Nat.id k) in Hrow by lia.
           by eapply read_row_present_raise_kind.
Qed.

Lemma C8_short_input_fails_witness :
  _read_instance ["lonely"]%string = Raise IndexError
  ∧ (∃ e, _read_instance short_sample = Raise e)
  ∧ _read_instance short_sample = Raise IndexError
  ∧ _read_instance short_bad_token_sample = Raise ValueError.
Proof.
  split.
  - apply (proj1 (C8_short_input_fails ["lonely"]%string)). vm_compute. lia.
  - destruct (proj2 (C8_short_input_fails short_sample) 1 1)
      as (Hfail & Hkind & _); [reflexivity | lia | reflexivity |].
    destruct (proj2 (C8_short_input_fails short_bad_token_sample) 1 1)
      as (_ & _ & Hbad); [reflexivity | lia | reflexivity |].
    split_and!; [exact Hfail | | ].
    + apply Hkind. intros i line Hline Hpos.
      destruct i as [|[|[|[|i]]]]; vm_compute in Hline; try discriminate.
      * destruct Hpos; lia.
      * destruct Hpos; lia.
      * destruct Hpos; lia.
      * by injection Hline as <-.
    + apply Hbad. exists 3%nat, "abc"%string.
      split_and!; [reflexivity | left; lia | reflexivity].
Defined.

(** C8 as worded: a short input whose first table line holds a token that is
    not an integer fails on that token, not on a missing line; and a header
    with zero jobs asks for no table line at all, so two lines make an
    instance. *)
Lemma C8_short_input_counterexample :
  (length (clean_lines short_bad_token_sample) < 4 + 2 * 1)%nat
  ∧ read_header (clean_lines short_bad_token_sample) = Ok (1, 1)
  ∧ _read_instance short_bad_token_sample = Raise ValueError
  ∧ (length (clean_lines no_jobs_sample) < 4 + 2 * 0)%nat
  ∧ read_header (clean_lines no_jobs_sample) = Ok (0, 0)
  ∧ _read_instance no_jobs_sample = Ok (0, 0, [], 0).
Proof. split_and!; try reflexivity; vm_compute; lia. Qed.

(** ** The methods *)

Section MethodProperties.

Context {G : Type}.
Variable randbelow : Z → G → Z * G.

Lemma preserves_ret {A} (a : A) : preserves_self (G:=G) (mret a).
Proof. by intros w. Qed.

Lemma preserves_bind {A B} (m : M A) (k : A → M B) :
  preserves_self m → (∀ a, preserves_self (G:=G) (k a)) → preserves_self (G:=G) (m ≫= k).
Proof.
  intros Hm Hk w. unfold mbind, M_bind. specialize (Hm w).
  destruct (m w) as [[a|e] w']; simpl in *; [|done].
  by rewrite Hk.
Qed.

Lemma preserves_attr {A} (field : Instance → A) : preserves_self (G:=G) (attr field).
Proof. by intros w. Qed.

Lemma preserves_pure {A} (r : result A) : preserves_self (G:=G) (pure r).
Proof. by intros w. Qed.

Lemma preserves_draw (n : Z) : preserves_self (G:=G) (draw randbelow n).
Proof. intros w. unfold draw. by destruct (randbelow n (gen w)). Qed.

Lemma preserves_shuffle_loop indices x :
  preserves_self (G:=G) (shuffle_loop randbelow indices x).
Proof.
  revert x. induction indices as [|i indices IH]; intros x; simpl.
  - apply preserves_ret.
  - apply preserves_bind; [apply preserves_draw|]. intros j.
    apply preserves_bind; [apply preserves_pure | done].
Qed.

Lemma preserves_orders_loop inner outer :
  preserves_self (G:=G) (orders_loop randbelow inner outer).
Proof.
  induction outer as [|? outer IH]; simpl; [apply preserves_ret|].
  apply preserves_bind; [apply preserves_attr|]. intros n.
  apply preserves_bind; [apply preserves_shuffle_loop|]. intros order.
  apply preserves_bind; [done|]. intros rest. apply preserves_ret.
Qed.

Lemma preserves_random_solution : preserves_self (G:=G) (random_solution randbelow).
Proof.
  unfold random_solution.
  apply preserves_bind; [apply preserves_attr|]. intros nm.
  apply preserves_bind; [apply preserves_orders_loop|]. intros jobs_order.
  apply preserves_bind; [apply preserves_attr|]. intros nj.
  apply preserves_bind; [apply preserves_orders_loop|]. intros machines_order.
  apply preserves_ret.
Qed.

Lemma evaluate_solution_world (solution : pyval) (w : World (G:=G)) :
  (evaluate_solution solution w).2 = w.
Proof.
  destruct solution as [| | | | |d]; try done. simpl.
  by destruct (negb _ || negb _).
Qed.

(** C3.  A solution that is not a dictionary, or that lacks [jobs_order], or
    that lacks [machines_order], evaluates to exactly 1000000000, with no
    exception. *)
Theorem C3_malformed_solution_penalty (solution : pyval) (w : World (G:=G)) :
  ¬ is_record solution
  ∨ ¬ has_field "jobs_order" solution
  ∨ ¬ has_field "machines_order" solution →
  evaluate_solution solution w = (Ok (PInt 1000000000), w).
Proof.
  intros Hbad. destruct solution as [| | | | |d]; try done.
  simpl in Hbad. unfold evaluate_solution, contains.
  destruct Hbad as [[]|[Hj|Hm]]; [done|..].
  - by rewrite (bool_decide_eq_false_2 _ Hj).
  - rewrite (bool_decide_eq_false_2 _ Hm). by rewrite orb_true_r.
Qed.

(** C4.  On a dictionary that carries both [jobs_order] and
    [machines_order], the evaluation returns the value stored under
    [objective] when there is one, and 1000000000 when there is none. *)
Theorem C4_objective_or_penalty (d : gmap string pyval) (w : World (G:=G)) :
  has_field "jobs_order" (PDict d) →
  has_field "machines_order" (PDict d) →
  (∀ v, d !! "objective" = Some v →
        evaluate_solution (PDict d) w = (Ok v, w))
  ∧ (d !! "objective" = None →
     evaluate_solution (PDict d) w = (Ok (PInt 1000000000), w)).
Proof.
  simpl. intros Hj Hm. unfold evaluate_solution, contains.
  rewrite (bool_decide_eq_true_2 _ Hj), (bool_decide_eq_true_2 _ Hm). simpl.
  split; [intros v Hv | intros Hv]; by rewrite Hv.
Qed.

(** C9.  Neither [evaluate_solution], on any argument, nor [random_solution]
    changes the instance: its four fields are after the call what they were
    before it. *)
Theorem C9_instance_unchanged (solution : pyval) (w : World (G:=G)) :
  self (evaluate_solution solution w).2 = self w
  ∧ self (random_solution randbelow w).2 = self w.
Proof.
  split.
  - by rewrite evaluate_solution_world.
  - apply preserves_random_solution.
Qed.

(** What the standard library promises of [_randbelow(n)] for [n > 0]. *)
Hypothesis randbelow_range : ∀ n g, 0 < n → 0 ≤ (randbelow n g).1 < n.

Lemma setitem_Ok {A} (x : list A) (i : Z) (v : A) :
  0 ≤ i < Z.of_nat (length x) → setitem x i v = Ok (<[Z.to_nat i := v]> x).
Proof.
  intros Hi. unfold setitem.
  destruct (Z.ltb_spec i 0) as [?|_]; [lia|].
  destruct (Z.ltb_spec i 0) as [?|_]; [lia|].
  by destruct (Z.leb_spec (Z.of_nat (length x)) i) as [?|_]; [lia|].
Qed.

Lemma swap_Ok (x : list Z) (i j : Z) :
  0 ≤ i < Z.of_nat (length x) → 0 ≤ j < Z.of_nat (length x) →
  ∃ x', swap x i j = Ok x' ∧ x' ≡ₚ x.
Proof.
  intros Hi Hj. unfold swap.
  destruct (lookup_lt_is_Some_2 x (Z.to_nat i)) as [xi Hxi]; [lia|].
  destruct (lookup_lt_is_Some_2 x (Z.to_nat j)) as [xj Hxj]; [lia|].
  rewrite !getitem_nonneg, Hxi, Hxj by lia. cbn.
  rewrite setitem_Ok by done. cbn.
  rewrite setitem_Ok by (rewrite length_insert; lia).
  eexists. split; [done|]. by apply Permutation_insert_swap.
Qed.

Lemma shuffle_loop_Ok indices (x : list Z) (w : World (G:=G)) :
  Forall (λ i, 0 ≤ i < Z.of_nat (length x)) indices →
  ∃ x' w',
    shuffle_loop randbelow indices x w = (Ok x', w')
    ∧ self w' = self w ∧ x' ≡ₚ x.
Proof.
  revert x w. induction indices as [|i indices IH]; intros x w Hin.
  - by exists x, w.
  - apply Forall_cons in Hin as [Hi Hin]. simpl.
    unfold mbind, M_bind, draw.
    pose proof (randbelow_range (i + 1) (gen w) ltac:(lia)) as Hj.
    destruct (randbelow (i + 1) (gen w)) as [j g]. simpl in Hj.
    destruct (swap_Ok x i j) as (x1 & -> & Hx1); [lia..|]. unfold pure.
    destruct (IH x1 (mkWorld (self w) g)) as (x' & w' & -> & Hself & Hx').
    { by rewrite (Permutation_length Hx1). }
    exists x', w'. split_and!; [done.. |]. by rewrite Hx'.
Qed.

Lemma shuffle_Ok (x : list Z) (w : World (G:=G)) :
  ∃ x' w', shuffle randbelow x w = (Ok x', w') ∧ self w' = self w ∧ x' ≡ₚ x.
Proof.
  apply shuffle_loop_Ok. apply Forall_forall.
  intros i Hi%elem_of_reverse%elem_of_range2. lia.
Qed.

Lemma orders_loop_Ok inner outer (w : World (G:=G)) :
  ∃ orders w',
    orders_loop randbelow inner outer w = (Ok orders, w')
    ∧ self w' = self w
    ∧ length orders = length outer
    ∧ Forall (λ order, order ≡ₚ Py.range (inner (self w))) orders.
Proof.
  revert w. induction outer as [|? outer IH]; intros w.
  - by exists [], w.
  - simpl. unfold mbind, M_bind, attr.
    destruct (shuffle_Ok (Py.range (inner (self w))) w)
      as (order & w1 & -> & Hself1 & Horder).
    destruct (IH w1) as (rest & w2 & -> & Hself2 & Hlen & Hrest).
    exists (order :: rest), w2. split_and!.
    + done.
    + congruence.
    + simpl. by rewrite Hlen.
    + constructor; [done|]. by rewrite <- Hself1.
Qed.

Lemma random_solution_Ok (w : World (G:=G)) :
  ∃ jobs_order machines_order w',
    random_solution randbelow w
    = (Ok (PDict (<["jobs_order" := of_orders jobs_order]>
                  (<["machines_order" := of_orders machines_order]> ∅))), w')
    ∧ length jobs_order = Z.to_nat (nb_machines (self w))
    ∧ Forall (λ order, order ≡ₚ Py.range (nb_jobs (self w))) jobs_order
    ∧ length machines_order = Z.to_nat (nb_jobs (self w))
    ∧ Forall (λ order, order ≡ₚ Py.range (nb_machines (self w)))
             machines_order.
Proof.
  unfold random_solution, mbind, M_bind, attr.
  destruct (orders_loop_Ok nb_jobs (Py.range (nb_machines (self w))) w)
    as (jobs_order & w1 & -> & Hself1 & Hlen1 & Hjobs).
  destruct (orders_loop_Ok nb_machines (Py.range (nb_jobs (self w1))) w1)
    as (machines_order & w2 & -> & Hself2 & Hlen2 & Hmachines).
  rewrite Hself1 in *. rewrite length_range in Hlen1, Hlen2.
  by exists jobs_order, machines_order, w2.
Qed.

(** C6.  On an instance whose two counts are not negative, [random_solution]
    returns a dictionary whose [jobs_order] holds [nb_machines] sequences,
    each a permutation of [range(nb_jobs)], whose [machines_order] holds
    [nb_jobs] sequences, each a permutation of [range(nb_machines)], and
    which has no [objective]. *)
Theorem C6_random_solution_shape (w : World (G:=G)) :
  0 ≤ nb_jobs (self w) →
  0 ≤ nb_machines (self w) →
  ∃ d jobs_order machines_order w',
    random_solution randbelow w = (Ok (PDict d), w')
    ∧ d !! "jobs_order" = Some (of_orders jobs_order)
    ∧ Z.of_nat (length jobs_order) = nb_machines (self w)
    ∧ Forall (λ order, order ≡ₚ Py.range (nb_jobs (self w))) jobs_order
    ∧ d !! "machines_order" = Some (of_orders machines_order)
    ∧ Z.of_nat (length machines_order) = nb_jobs (self w)
    ∧ Forall (λ order, order ≡ₚ Py.range (nb_machines (self w)))
             machines_order
    ∧ d !! "objective" = None.
Proof.
  intros Hnj Hnm.
  destruct (random_solution_Ok w)
    as (jobs_order & machines_order & w' & -> & Hl1 & Hp1 & Hl2 & Hp2).
  eexists _, jobs_order, machines_order, w'.
  split_and!; [done | done | lia | done | done | lia | done | done].
Qed.

(** C10.  [random_solution] returns a dictionary that carries both
    [jobs_order] and [machines_order] and no [objective], so evaluating what
    it returns always gives exactly 1000000000. *)
Theorem C10_random_solution_evaluates_to_penalty (w : World (G:=G)) :
  ∃ d w',
    random_solution randbelow w = (Ok (PDict d), w')
    ∧ has_field "jobs_order" (PDict d)
    ∧ has_field "machines_order" (PDict d)
    ∧ d !! "objective" = None
    ∧ (solution ← random_solution randbelow; evaluate_solution solution) w
      = (Ok (PInt 1000000000), w').
Proof.
  destruct (random_solution_Ok w) as (jo & mo & w' & Hrun & _).
  eexists _, w'. split; [exact Hrun|]. split_and!.
  - simpl. by eexists.
  - simpl. by eexists.
  - done.
  - unfold mbind, M_bind. by rewrite Hrun.
Qed.

End MethodProperties.

(** ** Concrete runs *)

Lemma lcg_range n g : 0 < n → 0 ≤ (lcg n g).1 < n.
Proof. intros Hn. simpl. apply Z.mod_pos_bound. lia. Qed.

Lemma C3_malformed_solution_penalty_witness :
  evaluate_solution (PInt 7) sample_world
  = (Ok (PInt 1000000000), sample_world)
  ∧ evaluate_solution only_jobs_order sample_world
    = (Ok (PInt 1000000000), sample_world).
Proof.
  split; apply C3_malformed_solution_penalty.
  - left. simpl. tauto.
  - right; right. simpl. intros [v Hv]. vm_compute in Hv. discriminate.
Defined.

Lemma C4_objective_or_penalty_witness :
  evaluate_solution (PDict solved) sample_world = (Ok (PInt 42), sample_world).
Proof.
  apply (C4_objective_or_penalty solved sample_world).
  - simpl. eexists. reflexivity.
  - simpl. eexists. reflexivity.
  - reflexivity.
Defined.

Lemma C6_random_solution_shape_witness :
  ∃ d jobs_order machines_order w',
    random_solution lcg sample_world = (Ok (PDict d), w')
    ∧ d !! "jobs_order" = Some (of_orders jobs_order)
    ∧ Z.of_nat (length jobs_order) = 2
    ∧ Forall (λ order, order ≡ₚ Py.range 2) jobs_order
    ∧ d !! "machines_order" = Some (of_orders machines_order)
    ∧ Z.of_nat (length machines_order) = 2
    ∧ Forall (λ order, order ≡ₚ Py.range 2) machines_order
    ∧ d !! "objective" = None.
Proof.
  apply (C6_random_solution_shape lcg lcg_range sample_world); simpl; lia.
Defined.

Lemma C10_random_solution_evaluates_to_penalty_witness :
  ∃ d w',
    random_solution lcg sample_world = (Ok (PDict d), w')
    ∧ has_field "jobs_order" (PDict d)
    ∧ has_field "machines_order" (PDict d)
    ∧ d !! "objective" = None
    ∧ (solution ← random_solution lcg; evaluate_solution solution) sample_world
      = (Ok (PInt 1000000000), w').
Proof.
  apply (C10_random_solution_evaluates_to_penalty lcg lcg_range sample_world).
Defined.

(** ** Further properties of the reader *)

Lemma mapM_ext_in {A B} (f g : A → result B) l :
  (∀ x, x ∈ l → f x = g x) → mapM f l = mapM g l.
Proof.
  induction l as [|x l IH]; intros Hfg; [done|].
  rewrite !mapM_cons, (Hfg x) by left.
  rewrite IH; [done|]. intros; apply Hfg; by right.
Qed.

Lemma clean_lines_app raw raw' :
  clean_lines (raw ++ raw') = clean_lines raw ++ clean_lines raw'.
Proof. unfold clean_lines. by rewrite filter_app, fmap_app. Qed.

Lemma clean_lines_blank blank raw :
  Py.strip blank = EmptyString → clean_lines (blank :: raw) = clean_lines raw.
Proof. intros Hb. unfold clean_lines. by rewrite filter_cons_False by tauto. Qed.

(** The reader sees its input only through the cleaned lines. *)
Lemma read_instance_clean raw raw' :
  clean_lines raw = clean_lines raw' → _read_instance raw = _read_instance raw'.
Proof. intros Hc. unfold _read_instance, read_tables. by rewrite Hc. Qed.

(** X1.  A line that is empty once stripped can be inserted anywhere without
    changing what the reader returns, be it an instance or an exception. *)
Theorem blank_line_is_ignored raw1 blank raw2 :
  Py.strip blank = EmptyString →
  _read_instance (raw1 ++ blank :: raw2) = _read_instance (raw1 ++ raw2).
Proof.
  intros Hb. apply read_instance_clean.
  rewrite !clean_lines_app. f_equal. by apply clean_lines_blank.
Qed.

Lemma blank_line_is_ignored_witness :
  _read_instance (take 4 sample_2x2 ++ "  	"%string :: drop 4 sample_2x2)
  = _read_instance (take 4 sample_2x2 ++ drop 4 sample_2x2).
Proof. apply blank_line_is_ignored. reflexivity. Defined.

Lemma getitem_agree {A} (l l' : list A) (i : Z) :
  0 ≤ i → l !! Z.to_nat i = l' !! Z.to_nat i → Py.getitem l i = Py.getitem l' i.
Proof. intros Hi Heq. rewrite !getitem_nonneg by done. by rewrite Heq. Qed.

Lemma read_row_agree conv lines lines' (i : Z) :
  0 ≤ i → lines !! Z.to_nat i = lines' !! Z.to_nat i →
  read_row conv lines i = read_row conv lines' i.
Proof. intros Hi Heq. unfold read_row. by rewrite (getitem_agree lines lines'). Qed.

Lemma read_instance_agree raw raw' :
  read_header (clean_lines raw') = read_header (clean_lines raw) →
  (∀ nj nm (i : nat),
     read_header (clean_lines raw) = Ok (nj, nm) →
     table_position nj (Z.of_nat i) →
     clean_lines raw !! i = clean_lines raw' !! i) →
  _read_instance raw = _read_instance raw'.
Proof.
  intros Hhead Htab. unfold _read_instance, read_tables. rewrite Hhead.
  destruct (read_header (clean_lines raw)) as [[nj nm]|e] eqn:Hh; [|done].
  cbn. unfold read_times, read_machine_index.
  rewrite (mapM_ext_in (read_row id (clean_lines raw))
             (read_row id (clean_lines raw'))).
  2:{ intros i Hi%elem_of_range2. apply read_row_agree; [lia|].
      apply (Htab nj nm); [done|]. left. lia. }
  rewrite (mapM_ext_in (read_row (λ v, v - 1) (clean_lines raw))
             (read_row (λ v, v - 1) (clean_lines raw'))); [done|].
  intros i Hi%elem_of_range2.
  destruct (Z.le_gt_cases 0 i) as [Hpos|Hneg]; [|lia].
  apply read_row_agree; [done|].
  apply (Htab nj nm); [done|]. right. lia.
Qed.

(** X2.  The reader's outcome depends on line 1 and on the table lines only:
    two inputs whose cleaned lines agree there read the same, whatever their
    title line, their two label lines and their trailing lines hold. *)
Theorem only_header_and_tables_are_read raw raw' :
  clean_lines raw !! 1%nat = clean_lines raw' !! 1%nat →
  (∀ nj nm (i : nat),
     read_header (clean_lines raw) = Ok (nj, nm) →
     table_position nj (Z.of_nat i) →
     clean_lines raw !! i = clean_lines raw' !! i) →
  _read_instance raw = _read_instance raw'.
Proof.
  intros H1 Htab. apply read_instance_agree; [|done].
  unfold read_header. by rewrite (getitem_agree _ (clean_lines raw)).
Qed.

Lemma only_header_and_tables_are_read_witness :
  _read_instance sample_2x2 = _read_instance relabelled_2x2.
Proof.
  apply only_header_and_tables_are_read; [reflexivity|].
  intros nj nm i Hh Hpos. vm_compute in Hh. injection Hh as <- <-.
  destruct i as [|[|[|[|[|[|[|[|i]]]]]]]]; try reflexivity;
    destruct Hpos; lia.
Defined.

Lemma read_instance_inv raw nj nm pt ms :
  _read_instance raw = Ok (nj, nm, pt, ms) →
  ∃ times mi,
    read_tables raw = Ok (nj, nm, times, mi)
    ∧ reorder nj nm times mi = Ok pt
    ∧ ms = Py.sum (Py.sum <$> pt).
Proof.
  unfold _read_instance.
  destruct (read_tables raw) as [[[[nj' nm'] times] mi]|] eqn:Htab; [|done].
  cbn. destruct (reorder nj' nm' times mi) as [pt'|] eqn:Hre; [|done].
  cbn. intros [= -> -> -> <-]. by exists times, mi.
Qed.

Lemma mapM_Ok_mono {A B} (f g : A → result B) l k :
  (∀ x y, x ∈ l → f x = Ok y → g x = Ok y) →
  mapM f l = Ok k → mapM g l = Ok k.
Proof.
  intros Hfg Hf%mapM_Ok_Forall2. apply mapM_Ok_Forall2.
  induction Hf as [|x y l k Hxy Hlk IH]; constructor.
  - apply Hfg; [by left | done].
  - apply IH. intros x' y' Hx'. apply Hfg. by right.
Qed.

Lemma getitem_app_Ok {A} (l l' : list A) (i : Z) a :
  0 ≤ i → Py.getitem l i = Ok a → Py.getitem (l ++ l') i = Ok a.
Proof.
  intros Hi. rewrite !getitem_nonneg by done.
  destruct (l !! Z.to_nat i) as [a'|] eqn:Hl; [|done].
  intros [= ->]. by rewrite (lookup_app_l_Some _ _ _ _ Hl).
Qed.

Lemma read_row_app_Ok conv lines more (i : Z) row :
  0 ≤ i → read_row conv lines i = Ok row →
  read_row conv (lines ++ more) i = Ok row.
Proof.
  intros Hi. unfold read_row.
  destruct (Py.getitem lines i) as [line|] eqn:Hline; [|done].
  by rewrite (getitem_app_Ok _ _ _ _ Hi Hline).
Qed.

Lemma read_header_app_Ok lines more r :
  read_header lines = Ok r → read_header (lines ++ more) = Ok r.
Proof.
  unfold read_header.
  destruct (Py.getitem lines 1) as [line|] eqn:Hline; [|done].
  by rewrite (getitem_app_Ok lines more 1 line ltac:(lia) Hline).
Qed.

(** X3.  Lines after the last table line are never read: when the reader
    returns an instance, it returns the same one with anything appended. *)
Theorem trailing_lines_are_ignored raw more r :
  _read_instance raw = Ok r → _read_instance (raw ++ more) = Ok r.
Proof.
  destruct r as [[[nj nm] pt] ms].
  intros (times & mi & Htab & Hre & ->)%read_instance_inv.
  destruct (read_tables_inv _ _ _ _ _ Htab) as (Hh & Ht & Hi).
  unfold _read_instance, read_tables. rewrite clean_lines_app.
  rewrite (read_header_app_Ok _ _ _ Hh). cbn.
  unfold read_times, read_machine_index in *.
  assert (mapM (read_row id (clean_lines raw ++ clean_lines more))
            (Py.range2 3 (3 + nj)) = Ok times) as ->.
  { eapply mapM_Ok_mono; [|exact Ht].
    intros i row Hin%elem_of_range2. apply read_row_app_Ok. lia. }
  cbn.
  assert (mapM (read_row (λ v, v - 1) (clean_lines raw ++ clean_lines more))
            (Py.range2 (4 + nj) (4 + 2 * nj)) = Ok mi) as ->.
  { eapply mapM_Ok_mono; [|exact Hi].
    intros i row Hin%elem_of_range2. apply read_row_app_Ok. lia. }
  cbn. by rewrite Hre.
Qed.

Lemma trailing_lines_are_ignored_witness :
  _read_instance (sample_2x2 ++ ["lower bound 9"; "-- end --"]%string)
  = Ok (2, 2, [[5; 3]; [4; 2]], 14).
Proof. apply trailing_lines_are_ignored. reflexivity. Defined.

(** X4.  A header announcing no job, or a negative number of jobs, makes the
    reader return the empty matrix with [max_start = 0] without looking at
    any later line. *)
Theorem no_jobs_gives_empty_instance raw nj nm :
  read_header (clean_lines raw) = Ok (nj, nm) →
  nj ≤ 0 →
  _read_instance raw = Ok (nj, nm, [], 0).
Proof.
  intros Hh Hnj. unfold _read_instance, read_tables. rewrite Hh. cbn.
  unfold read_times, read_machine_index, Py.range2.
  rewrite !seqZ_nil by lia. rewrite !mapM_nil. cbn.
  unfold reorder, Py.range, Py.range2.
  rewrite (seqZ_nil 0 (nj - 0)) by lia. reflexivity.
Qed.

Lemma no_jobs_gives_empty_instance_witness :
  _read_instance no_jobs_sample = Ok (0, 0, [], 0).
Proof. apply no_jobs_gives_empty_instance; [reflexivity | lia]. Defined.

Lemma int_not_is_int token :
  is_int token = false → Py.int token = Raise ValueError.
Proof.
  unfold is_int, Py.int.
  by destruct (match Py.strip token with
               | String "-"%char s' => Z.opp <$> Py.digits 0 false s'
               | String "+"%char s' => Py.digits 0 false s'
               | s' => Py.digits 0 false s'
               end).
Qed.

Lemma int_is_int token : is_int token = true → ∃ z, Py.int token = Ok z.
Proof. unfold is_int. destruct (Py.int token); [eauto | done]. Qed.

(** X5.  What a bad header line raises.  A first token that is not an
    integer raises [ValueError]; so does a second one after an integer first
    token; a header holding a single integer token raises [IndexError]. *)
Theorem header_failures raw line :
  clean_lines raw !! 1%nat = Some line →
  (∀ t0 rest, Py.split line = t0 :: rest → is_int t0 = false →
     _read_instance raw = Raise ValueError)
  ∧ (∀ t0 t1 rest, Py.split line = t0 :: t1 :: rest →
       is_int t0 = true → is_int t1 = false →
       _read_instance raw = Raise ValueError)
  ∧ (∀ t0, Py.split line = [t0] → is_int t0 = true →
       _read_instance raw = Raise IndexError).
Proof.
  intros Hline. unfold _read_instance, read_tables, read_header.
  rewrite (getitem_nonneg _ 1) by lia. change (Z.to_nat 1) with 1%nat.
  rewrite Hline. cbn -[Py.int Py.split Py.getitem].
  split_and!; [intros t0 rest -> | intros t0 t1 rest -> | intros t0 ->];
    rewrite !getitem_nonneg by lia;
    change (Z.to_nat 0) with 0%nat; change (Z.to_nat 1) with 1%nat;
    cbn -[Py.int].
  - intros Ht0%int_not_is_int. by rewrite Ht0.
  - intros [z Ht0]%int_is_int Ht1%int_not_is_int. by rewrite Ht0, Ht1.
  - intros [z Ht0]%int_is_int. by rewrite Ht0.
Qed.

Lemma header_failures_witness :
  _read_instance one_token_header_sample = Raise IndexError.
Proof.
  apply (proj2 (proj2 (header_failures one_token_header_sample "3"
                         ltac:(reflexivity))) "3"%string);
    reflexivity.
Defined.

(** ** What every accepted file guarantees *)

Lemma init_inv raw inst :
  __init__ raw = Ok inst →
  _read_instance raw
  = Ok (nb_jobs inst, nb_machines inst, processing_times inst, max_start inst).
Proof.
  unfold __init__.
  destruct (_read_instance raw) as [[[[nj nm] pt] ms]|]; [|done].
  cbn. by intros [= <-].
Qed.

Lemma reorder_Ok_rows nj nm times mi pt :
  reorder nj nm times mi = Ok pt →
  Forall2 (λ j row,
             Forall2 (λ m d, lookup_time times mi j m = Ok d)
                     (Py.range nm) row)
          (Py.range nj) pt.
Proof.
  unfold reorder. intros Hre%mapM_Ok_Forall2.
  eapply Forall2_impl; [exact Hre|]. intros j row Hrow. simpl in Hrow.
  by apply mapM_Ok_Forall2.
Qed.

(** X6.  Whatever the file, an instance that [__init__] builds has
    [max(nb_jobs, 0)] rows of [max(nb_machines, 0)] entries, and its
    [max_start] is the sum of all entries of its matrix. *)
Theorem constructed_instance_invariant raw inst :
  __init__ raw = Ok inst →
  length (processing_times inst) = Z.to_nat (nb_jobs inst)
  ∧ Forall (λ row, length row = Z.to_nat (nb_machines inst))
           (processing_times inst)
  ∧ max_start inst = Py.sum (concat (processing_times inst)).
Proof.
  intros (times & mi & _ & Hre & Hms)%init_inv%read_instance_inv.
  apply reorder_Ok_rows in Hre. split_and!.
  - rewrite <- (Forall2_length _ _ _ Hre). apply length_range.
  - eapply Forall2_Forall_r; [exact Hre|]. apply Forall_forall.
    intros j _ row Hrow. rewrite <- (Forall2_length _ _ _ Hrow).
    apply length_range.
  - rewrite Hms. apply sum_rows.
Qed.

Lemma constructed_instance_invariant_witness :
  length [[3; 5]] = Z.to_nat 1
  ∧ Forall (λ row, length row = Z.to_nat 2) [[3; 5]]
  ∧ 8 = Py.sum (concat [[3; 5]]).
Proof.
  apply (constructed_instance_invariant dup_sample (mkInstance 1 2 [[3; 5]] 8)).
  reflexivity.
Defined.

Lemma index_from_Ok_inv (pos : Z) (l : list Z) (x p : Z) :
  Py.index_from pos l x = Ok p →
  ∃ k : nat,
    p = pos + Z.of_nat k ∧ l !! k = Some x
    ∧ ∀ q, (q < k)%nat → l !! q ≠ Some x.
Proof.
  revert pos. induction l as [|y l IH]; intros pos; [done|]. simpl.
  destruct (Z.eqb_spec y x) as [->|Hne].
  - intros [= <-]. exists 0%nat. split_and!; [lia | done | lia].
  - intros (k & -> & Hk & Hfirst)%IH. exists (S k). split_and!; [lia | done |].
    intros [|q] Hq; simpl; [congruence | apply Hfirst; lia].
Qed.

Lemma getitem_Ok_inv {A} (l : list A) (i : Z) a :
  0 ≤ i → Py.getitem l i = Ok a → l !! Z.to_nat i = Some a.
Proof.
  intros Hi. rewrite getitem_nonneg by done.
  destruct (l !! Z.to_nat i); [by intros [= ->] | done].
Qed.

Lemma lookup_time_Ok_inv times mi (j m d : Z) :
  0 ≤ j → lookup_time times mi j m = Ok d →
  ∃ indices line (p : nat),
    mi !! Z.to_nat j = Some indices ∧ times !! Z.to_nat j = Some line
    ∧ indices !! p = Some m ∧ (∀ q, (q < p)%nat → indices !! q ≠ Some m)
    ∧ line !! p = Some d.
Proof.
  intros Hj. unfold lookup_time.
  destruct (Py.getitem mi j) as [indices|] eqn:Hi; [|done]. cbn.
  destruct (Py.index indices m) as [pos|] eqn:Hpos; [|done]. cbn.
  destruct (Py.getitem times j) as [line|] eqn:Hl; [|done]. cbn.
  intros Hd. apply getitem_Ok_inv in Hi, Hl; [|done..].
  apply index_from_Ok_inv in Hpos as (p & -> & Hp & Hfirst).
  apply getitem_Ok_inv in Hd; [|lia].
  exists indices, line, p. split_and!; try done.
  by rewrite Z.add_0_l, Nat2Z.id in Hd.
Qed.

(** X7.  Whatever the file, when the reader returns a matrix, each entry at
    job [j], machine [m] is the duration standing on job [j]'s duration line
    at the first position where job [j]'s 0-based machine line holds [m]; in
    particular every machine index of [range(nb_machines)] stands on every
    job's machine line. *)
Theorem first_occurrence_decides raw nj nm pt ms :
  _read_instance raw = Ok (nj, nm, pt, ms) →
  ∃ times mi,
    read_tables raw = Ok (nj, nm, times, mi)
    ∧ ∀ j m, 0 ≤ j < nj → 0 ≤ m < nm →
        ∃ p d,
          0 ≤ p
          ∧ at2 mi j p = Ok m
          ∧ (∀ q, 0 ≤ q < p → at2 mi j q ≠ Ok m)
          ∧ at2 times j p = Ok d
          ∧ at2 pt j m = Ok d.
Proof.
  intros (times & mi & Htab & Hre & _)%read_instance_inv.
  exists times, mi. split; [done|]. intros j m Hj Hm.
  apply reorder_Ok_rows in Hre.
  destruct (Forall2_lookup_l _ _ _ (Z.to_nat j) j Hre) as (row & Hrow & Hlook).
  { rewrite lookup_range by lia. f_equal. lia. }
  destruct (Forall2_lookup_l _ _ _ (Z.to_nat m) m Hlook) as (d & Hd & Hdm).
  { rewrite lookup_range by lia. f_equal. lia. }
  apply lookup_time_Ok_inv in Hdm
    as (indices & line & p & Hmi & Hline & Hp & Hfirst & Hpd); [|lia].
  exists (Z.of_nat p), d. split_and!.
  - lia.
  - rewrite <- (Z2Nat.id j) by lia. by eapply at2_lookup.
  - intros q Hq (indices' & Hmi' & Hq')%at2_Ok_inv; [|lia..].
    simplify_eq. apply (Hfirst (Z.to_nat q)); [lia | done].
  - rewrite <- (Z2Nat.id j) by lia. by eapply at2_lookup.
  - rewrite <- (Z2Nat.id j), <- (Z2Nat.id m) by lia. by eapply at2_lookup.
Qed.

Lemma first_occurrence_decides_witness :
  ∃ times mi,
    read_tables dup_sample = Ok (1, 2, times, mi)
    ∧ ∀ j m, 0 ≤ j < 1 → 0 ≤ m < 2 →
        ∃ p d,
          0 ≤ p
          ∧ at2 mi j p = Ok m
          ∧ (∀ q, 0 ≤ q < p → at2 mi j q ≠ Ok m)
          ∧ at2 times j p = Ok d
          ∧ at2 [[3; 5]] j m = Ok d.
Proof. apply (first_occurrence_decides dup_sample 1 2 [[3; 5]] 8). reflexivity. Defined.

(** ** The upper bound and two special shapes of the tables *)

Lemma sum_Permutation (xs ys : list Z) : xs ≡ₚ ys → Py.sum xs = Py.sum ys.
Proof.
  induction 1 as [|x xs ys _ IH|x y xs|xs ys zs _ IH1 _ IH2].
  - done.
  - by rewrite !sum_cons, IH.
  - rewrite !sum_cons. lia.
  - congruence.
Qed.

Lemma sum_concat_rows (t t' : list (list Z)) :
  Forall2 (≡ₚ) t t' → Py.sum (concat t) = Py.sum (concat t').
Proof.
  induction 1 as [|row row' t t' Hrow _ IH]; [done|].
  simpl. by rewrite !sum_app, IH, (sum_Permutation _ _ Hrow).
Qed.

Lemma sum_nonneg (xs : list Z) : Forall (Z.le 0) xs → 0 ≤ Py.sum xs.
Proof.
  induction 1 as [|x xs Hx _ IH]; [done|]. rewrite sum_cons. lia.
Qed.

Lemma sum_bounds_entry (xs : list Z) (x : Z) :
  Forall (Z.le 0) xs → x ∈ xs → x ≤ Py.sum xs.
Proof.
  induction 1 as [|y xs Hy Hxs IH]; [by intros ?%elem_of_nil|].
  rewrite sum_cons. pose proof (sum_nonneg xs Hxs).
  intros [->|Hx%IH]%elem_of_cons; lia.
Qed.

Lemma total_nonneg (t : list (list Z)) :
  Forall (Forall (Z.le 0)) t → 0 ≤ Py.sum (concat t).
Proof.
  induction 1 as [|row t Hrow _ IH]; [done|].
  simpl. rewrite sum_app. pose proof (sum_nonneg row Hrow). lia.
Qed.

Lemma total_bounds_entry (t : list (list Z)) row d :
  Forall (Forall (Z.le 0)) t → row ∈ t → d ∈ row → d ≤ Py.sum (concat t).
Proof.
  induction 1 as [|row' t Hrow' Ht IH]; [by intros ?%elem_of_nil|].
  simpl. rewrite sum_app.
  pose proof (sum_nonneg row' Hrow'). pose proof (total_nonneg t Ht).
  intros [Heq|Hin]%elem_of_cons Hd.
  - subst. pose proof (sum_bounds_entry _ d Hrow' Hd). lia.
  - specialize (IH Hin Hd). lia.
Qed.

(** X8.  On a well-formed file, [max_start] is the sum of the durations as
    the file lists them: the reordering moves durations inside a job's row
    and leaves the total alone. *)
Theorem max_start_is_total_of_file raw nj nm times mi :
  well_formed raw nj nm times mi →
  ∃ pt, _read_instance raw = Ok (nj, nm, pt, Py.sum (concat times)).
Proof.
  intros Hwf. exists (reordered nj nm times mi).
  rewrite (read_instance_wf _ _ _ _ _ Hwf). do 2 f_equal.
  rewrite sum_rows. apply sum_concat_rows. by eapply reordered_rows.
Qed.

Lemma max_start_is_total_of_file_witness :
  ∃ pt, _read_instance sample_2x2
        = Ok (2, 2, pt, Py.sum (concat [[3; 5]; [4; 2]])).
Proof.
  apply (max_start_is_total_of_file sample_2x2 2 2 _ [[1; 0]; [0; 1]]).
  split_and!; [reflexivity | by repeat constructor |].
  repeat constructor.
Defined.

(** X9.  On a well-formed file whose durations are not negative,
    [max_start] bounds every entry of the matrix from above, and no entry is
    negative: it is the upper bound on start times that the source takes it
    for. *)
Theorem max_start_bounds_entries raw nj nm times mi :
  well_formed raw nj nm times mi →
  Forall (Forall (Z.le 0)) times →
  ∃ pt ms,
    _read_instance raw = Ok (nj, nm, pt, ms)
    ∧ ∀ row d, row ∈ pt → d ∈ row → 0 ≤ d ≤ ms.
Proof.
  intros Hwf Hpos. eexists _, _. split; [by apply read_instance_wf|].
  pose proof (reordered_rows _ _ _ _ _ Hwf) as Hrows.
  assert (Forall (Forall (Z.le 0)) (reordered nj nm times mi)) as Hnn.
  { eapply Forall2_Forall_l; [exact Hrows|].
    eapply Forall_impl; [exact Hpos|]. intros line Hline row Hrow. simpl in *.
    by rewrite Hrow. }
  intros row d Hrow Hd. rewrite sum_rows. split.
  - rewrite Forall_forall in Hnn. specialize (Hnn row Hrow).
    rewrite Forall_forall in Hnn. by apply Hnn.
  - by eapply total_bounds_entry.
Qed.

Lemma max_start_bounds_entries_witness :
  ∃ pt ms,
    _read_instance sample_2x2 = Ok (2, 2, pt, ms)
    ∧ ∀ row d, row ∈ pt → d ∈ row → 0 ≤ d ≤ ms.
Proof.
  apply (max_start_bounds_entries sample_2x2 2 2 [[3; 5]; [4; 2]]
           [[1; 0]; [0; 1]]).
  - split_and!; [reflexivity | by repeat constructor |]. repeat constructor.
  - repeat constructor; lia.
Defined.

Lemma getitem_raise_kind {A} (l : list A) (i : Z) e :
  Py.getitem l i = Raise e → e = IndexError.
Proof.
  unfold Py.getitem.
  destruct (_ <? 0); [by intros [= <-]|].
  destruct (l !! _); [done | by intros [= <-]].
Qed.

Lemma index_elem (l : list Z) (x : Z) : x ∈ l → ∃ p, Py.index l x = Ok p.
Proof.
  unfold Py.index. generalize 0. induction l as [|y l IH]; intros pos.
  - by intros ?%elem_of_nil.
  - simpl. destruct (Z.eqb_spec y x) as [->|Hne]; [by eauto|].
    intros [->|Hx]%elem_of_cons; [done | by apply IH].
Qed.

Lemma lookup_time_raise_kind times mi (j : nat) indices m e :
  mi !! j = Some indices → m ∈ indices →
  lookup_time times mi (Z.of_nat j) m = Raise e → e = IndexError.
Proof.
  intros Hi [pos Hpos]%index_elem. unfold lookup_time.
  rewrite (getitem_of_nat mi), Hi. cbn. rewrite Hpos. cbn.
  destruct (Py.getitem times (Z.of_nat j)) as [line|e'] eqn:Hl; cbn.
  - apply getitem_raise_kind.
  - intros [= <-]. by eapply getitem_raise_kind.
Qed.

Lemma entry_fmap_indices times mi (j : nat) indices row :
  mi !! j = Some indices → times !! j = Some row →
  NoDup indices → length row = length indices →
  entry times mi (Z.of_nat j) <$> indices = row.
Proof.
  intros Hi Hr Hnd Hlen. apply list_eq. intros p. rewrite list_lookup_fmap.
  destruct (indices !! p) as [m|] eqn:Hp; cbn.
  - destruct (lookup_lt_is_Some_2 row p) as [d Hd].
    { apply lookup_lt_Some in Hp. lia. }
    rewrite Hd. unfold entry.
    by rewrite (lookup_time_at times mi j p indices row m d).
  - symmetry. apply lookup_ge_None. apply lookup_ge_None in Hp. lia.
Qed.

(** X10.  When every machine line is a permutation of [range(nb_machines)]
    but some job's duration line holds fewer than [nb_machines] entries, the
    reader fails with [IndexError]: the lookup runs past the end of that
    line. *)
Theorem short_duration_line_is_fatal raw nj nm times mi (j : nat) line :
  read_tables raw = Ok (nj, nm, times, mi) →
  Forall (λ indices, indices ≡ₚ Py.range nm) mi →
  times !! j = Some line →
  Z.of_nat (length line) < nm →
  _read_instance raw = Raise IndexError.
Proof.
  intros Htab Hperm Hline Hshort.
  destruct (read_tables_lengths _ _ _ _ _ Htab) as [Ht Hm].
  assert (j < Z.to_nat nj)%nat as Hj by (apply lookup_lt_Some in Hline; lia).
  destruct (lookup_lt_is_Some_2 mi j) as [indices Hi]; [lia|].
  pose proof (Forall_lookup_1 _ mi _ _ Hperm Hi) as Hp. simpl in Hp.
  assert (NoDup indices) as Hnd by (rewrite Hp; apply NoDup_range).
  destruct (lookup_lt_is_Some_2 indices (length line)) as [m Hm0].
  { rewrite Hp, length_range. lia. }
  assert (m ∈ Py.range nm) as Hmr
    by (rewrite <- Hp; by eapply list_elem_of_lookup_2).
  assert (lookup_time times mi (Z.of_nat j) m = Raise IndexError) as Hfail.
  { unfold lookup_time. rewrite !getitem_of_nat, Hi, Hline. cbn.
    rewrite (index_NoDup _ _ (length line)) by done. cbn.
    by rewrite getitem_past_end. }
  assert (∃ e, reorder nj nm times mi = Raise e) as [e He].
  { destruct (mapM_Raise (lookup_time times mi (Z.of_nat j)) (Py.range nm)
                m IndexError) as [e' He']; [done..|].
    eapply (mapM_Raise _ (Py.range nj) (Z.of_nat j)); [|exact He'].
    apply elem_of_range. lia. }
  unfold _read_instance. rewrite Htab. cbn. rewrite He. cbn. f_equal.
  unfold reorder in He. eapply mapM_raise_kind; [|exact He].
  intros j' e' Hj'%elem_of_range Hrow. simpl in Hrow.
  eapply mapM_raise_kind; [|exact Hrow].
  intros m' e'' Hm' Hlook.
  destruct (lookup_lt_is_Some_2 mi (Z.to_nat j')) as [indices' Hi']; [lia|].
  rewrite <- (Z2Nat.id j') in Hlook by lia.
  eapply lookup_time_raise_kind; [exact Hi' | | exact Hlook].
  by rewrite (Forall_lookup_1 _ mi _ _ Hperm Hi').
Qed.

Lemma short_duration_line_is_fatal_witness :
  _read_instance short_times_sample = Raise IndexError.
Proof.
  apply (short_duration_line_is_fatal _ 1 3 [[7; 1]] [[2; 0; 1]] 0 [7; 1]).
  - reflexivity.
  - repeat constructor.
    change (Py.range 3) with [0; 1; 2].
    etrans; [apply perm_swap | apply perm_skip, perm_swap].
  - reflexivity.
  - simpl. lia.
Defined.

(** X11.  When the file lists every job's activities in machine order (each
    machine line reads 1, 2, ..., [nb_machines]), the matrix is the duration
    table as the file gives it. *)
Theorem identity_machine_lines_keep_table raw nj nm times mi :
  read_tables raw = Ok (nj, nm, times, mi) →
  Forall (λ row, Z.of_nat (length row) = nm) times →
  Forall (λ indices, indices = Py.range nm) mi →
  _read_instance raw = Ok (nj, nm, times, Py.sum (concat times)).
Proof.
  intros Htab Hcols Hid.
  destruct (read_tables_lengths _ _ _ _ _ Htab) as [Ht Hm].
  assert (well_formed raw nj nm times mi) as Hwf.
  { split_and!; [done..|]. eapply Forall_impl; [exact Hid|].
    by intros indices ->. }
  rewrite (read_instance_wf _ _ _ _ _ Hwf).
  assert (reordered nj nm times mi = times) as ->; [|by rewrite sum_rows].
  apply list_eq. intros j.
  destruct (decide (j < Z.to_nat nj)%nat) as [Hj|Hj].
  - rewrite lookup_reordered by done.
    destruct (lookup_lt_is_Some_2 times j) as [row Hrow]; [lia|].
    destruct (lookup_lt_is_Some_2 mi j) as [indices Hi]; [lia|].
    pose proof (Forall_lookup_1 _ mi _ _ Hid Hi) as Hrange. simpl in Hrange.
    pose proof (Forall_lookup_1 _ times _ _ Hcols Hrow) as Hlen. simpl in Hlen.
    rewrite Hrow. f_equal. subst indices.
    apply (entry_fmap_indices times mi j (Py.range nm) row);
      [done | done | apply NoDup_range | rewrite length_range; lia].
  - rewrite (lookup_ge_None_2 times) by lia.
    apply lookup_ge_None. unfold reordered.
    rewrite length_fmap, length_range. lia.
Qed.

Lemma identity_machine_lines_keep_table_witness :
  _read_instance identity_sample
  = Ok (2, 3, [[7; 1; 4]; [2; 9; 6]], Py.sum (concat [[7; 1; 4]; [2; 9; 6]])).
Proof.
  apply (identity_machine_lines_keep_table _ 2 3 _ [[0; 1; 2]; [0; 1; 2]]).
  - reflexivity.
  - by repeat constructor.
  - by repeat constructor.
Defined.

(** ** Further properties of the methods *)

Section MoreMethodProperties.

Context {G : Type}.
Variable randbelow : Z → G → Z * G.

Lemma counts_ret {A} (a : A) : reads_counts_only (G:=G) (mret a).
Proof. by intros w1 w2 Hw. Qed.

Lemma counts_bind {A B} (m : M A) (k : A → M B) :
  reads_counts_only (G:=G) m → (∀ a, reads_counts_only (k a)) →
  reads_counts_only (m ≫= k).
Proof.
  intros Hm Hk w1 w2 Hw. unfold mbind, M_bind.
  destruct (Hm w1 w2 Hw) as [Hres Hw'].
  destruct (m w1) as [[a1|e1] w1'], (m w2) as [[a2|e2] w2'];
    simpl in *; simplify_eq; [by apply Hk | done].
Qed.

Lemma counts_pure {A} (r : result A) : reads_counts_only (G:=G) (pure r).
Proof. by intros w1 w2 Hw. Qed.

Lemma counts_attr_jobs : reads_counts_only (G:=G) (attr nb_jobs).
Proof. intros w1 w2 Hw. unfold attr. simpl. split; [|done]. f_equal. apply Hw. Qed.

Lemma counts_attr_machines : reads_counts_only (G:=G) (attr nb_machines).
Proof. intros w1 w2 Hw. unfold attr. simpl. split; [|done]. f_equal. apply Hw. Qed.

Lemma counts_draw (n : Z) : reads_counts_only (draw randbelow n).
Proof.
  intros w1 w2 (Hj & Hm & Hg). unfold draw. rewrite Hg.
  by destruct (randbelow n (gen w2)).
Qed.

Lemma counts_shuffle_loop indices x :
  reads_counts_only (shuffle_loop randbelow indices x).
Proof.
  revert x. induction indices as [|i indices IH]; intros x; simpl.
  - apply counts_ret.
  - apply counts_bind; [apply counts_draw|]. intros j.
    apply counts_bind; [apply counts_pure | done].
Qed.

Lemma counts_orders_loop inner outer :
  reads_counts_only (G:=G) (attr inner) →
  reads_counts_only (orders_loop randbelow inner outer).
Proof.
  intros Hinner. induction outer as [|? outer IH]; simpl; [apply counts_ret|].
  apply counts_bind; [done|]. intros n.
  apply counts_bind; [apply counts_shuffle_loop|]. intros order.
  apply counts_bind; [done|]. intros rest. apply counts_ret.
Qed.

(** X12.  [random_solution] looks at [nb_jobs] and [nb_machines] only: on two
    instances with the same counts and from the same generator state it
    returns the same solution and leaves the generator in the same state,
    whatever their matrices and [max_start] are. *)
Theorem random_solution_ignores_matrix (w1 w2 : World (G:=G)) :
  nb_jobs (self w1) = nb_jobs (self w2) →
  nb_machines (self w1) = nb_machines (self w2) →
  gen w1 = gen w2 →
  (random_solution randbelow w1).1 = (random_solution randbelow w2).1
  ∧ gen (random_solution randbelow w1).2 = gen (random_solution randbelow w2).2.
Proof.
  intros Hj Hm Hg.
  assert (reads_counts_only (random_solution randbelow)) as Hrs.
  { unfold random_solution.
    apply counts_bind; [apply counts_attr_machines|]. intros nm.
    apply counts_bind; [apply counts_orders_loop, counts_attr_jobs|].
    intros jobs_order.
    apply counts_bind; [apply counts_attr_jobs|]. intros nj.
    apply counts_bind; [apply counts_orders_loop, counts_attr_machines|].
    intros machines_order. apply counts_ret. }
  destruct (Hrs w1 w2) as [Hres (_ & _ & Hgen)]; done.
Qed.

(** X13.  [evaluate_solution] probes a dictionary for the presence of
    [jobs_order] and [machines_order] and for the value under [objective],
    and nothing else: two dictionaries that agree on these three probes
    evaluate alike, on any instance; the orderings themselves are never
    inspected. *)
Theorem evaluate_solution_three_probes (d d' : gmap string pyval)
    (w w' : World (G:=G)) :
  (is_Some (d !! "jobs_order") ↔ is_Some (d' !! "jobs_order")) →
  (is_Some (d !! "machines_order") ↔ is_Some (d' !! "machines_order")) →
  d !! "objective" = d' !! "objective" →
  (evaluate_solution (PDict d) w).1 = (evaluate_solution (PDict d') w').1.
Proof.
  intros Hj Hm Ho. unfold evaluate_solution, contains.
  rewrite (bool_decide_ext _ _ Hj), (bool_decide_ext _ _ Hm), Ho.
  by destruct (negb _ || negb _).
Qed.

Hypothesis randbelow_range : ∀ n g, 0 < n → 0 ≤ (randbelow n g).1 < n.

(** X14.  A solution that [random_solution] returned, once an [objective] is
    stored in it, evaluates to that objective. *)
Theorem scored_random_solution_evaluates_to_score (w : World (G:=G))
    (score : pyval) :
  ∃ d w',
    random_solution randbelow w = (Ok (PDict d), w')
    ∧ ∀ w'' : World (G:=G),
        evaluate_solution (PDict (<["objective" := score]> d)) w''
        = (Ok score, w'').
Proof.
  destruct (random_solution_Ok randbelow randbelow_range w)
    as (jo & mo & w' & Hrun & _).
  eexists _, w'. split; [exact Hrun|]. intros w''.
  unfold evaluate_solution, contains.
  rewrite lookup_insert_eq. simpl.
  rewrite !bool_decide_eq_true_2; [done | ..].
  - rewrite lookup_insert_ne, lookup_insert_ne, lookup_insert_eq by done.
    by eexists.
  - rewrite lookup_insert_ne, lookup_insert_eq by done. by eexists.
Qed.

End MoreMethodProperties.

Lemma random_solution_ignores_matrix_witness :
  (random_solution lcg sample_world).1
  = (random_solution lcg other_matrix_world).1
  ∧ gen (random_solution lcg sample_world).2
    = gen (random_solution lcg other_matrix_world).2.
Proof.
  apply (random_solution_ignores_matrix lcg sample_world other_matrix_world);
    reflexivity.
Defined.

Lemma evaluate_solution_three_probes_witness :
  (evaluate_solution (PDict solved) sample_world).1
  = (evaluate_solution (PDict solved_with_junk) other_matrix_world).1.
Proof.
  apply (evaluate_solution_three_probes solved solved_with_junk).
  - split; intros _; eexists; reflexivity.
  - split; intros _; eexists; reflexivity.
  - reflexivity.
Defined.

Lemma scored_random_solution_evaluates_to_score_witness :
  ∃ d w',
    random_solution lcg sample_world = (Ok (PDict d), w')
    ∧ ∀ w'' : World (G:=Z),
        evaluate_solution (PDict (<["objective" := PInt 42]> d)) w''
        = (Ok (PInt 42), w'').
Proof.
  apply (scored_random_solution_evaluates_to_score lcg lcg_range sample_world).
Defined.

(** ** Which files are accepted, and what the others raise *)

Lemma index_from_raise_kind (pos : Z) (l : list Z) (x : Z) e :
  Py.index_from pos l x = Raise e → e = ValueError.
Proof.
  revert pos. induction l as [|y l IH]; intros pos; simpl.
  - by intros [= <-].
  - destruct (y =? x); [done | apply IH].
Qed.

Lemma lookup_time_first times mi (j p : nat) indices line m d :
  mi !! j = Some indices → times !! j = Some line →
  indices !! p = Some m → (∀ q, (q < p)%nat → indices !! q ≠ Some m) →
  line !! p = Some d →
  lookup_time times mi (Z.of_nat j) m = Ok d.
Proof.
  intros Hi Hl Hp Hfirst Hd. unfold lookup_time.
  rewrite !getitem_of_nat, Hi, Hl. cbn.
  unfold Py.index. rewrite (index_from_first 0 indices m p) by done. cbn.
  by rewrite Z.add_0_l, getitem_of_nat, Hd.
Qed.

Lemma lookup_time_raise_value times mi (j : nat) indices line m e :
  mi !! j = Some indices → times !! j = Some line →
  (length indices ≤ length line)%nat →
  lookup_time times mi (Z.of_nat j) m = Raise e → e = ValueError.
Proof.
  intros Hi Hl Hlen. unfold lookup_time.
  rewrite !getitem_of_nat, Hi, Hl. cbn. unfold Py.index.
  destruct (Py.index_from 0 indices m) as [pos|e'] eqn:Hpos; cbn.
  - apply index_from_Ok_inv in Hpos as (k & -> & Hk & _).
    apply lookup_lt_Some in Hk.
    destruct (lookup_lt_is_Some_2 line k) as [d Hd]; [lia|].
    by rewrite Z.add_0_l, getitem_of_nat, Hd.
  - intros [= <-]. by eapply index_from_raise_kind.
Qed.

(** X15.  When no duration line is shorter than its machine line, a machine
    index of [range(nb_machines)] missing from some job's machine line makes
    the reader fail with [ValueError], the error of [list.index]. *)
Theorem missing_index_raises_ValueError raw nj nm times mi
    (j : nat) indices m :
  read_tables raw = Ok (nj, nm, times, mi) →
  Forall2 (λ line indices', (length indices' ≤ length line)%nat) times mi →
  mi !! j = Some indices →
  0 ≤ m < nm →
  m ∉ indices →
  _read_instance raw = Raise ValueError.
Proof.
  intros Htab Hlens Hi Hm Hout.
  destruct (read_tables_lengths _ _ _ _ _ Htab) as [Ht Hrows].
  assert (j < Z.to_nat nj)%nat as Hj by (apply lookup_lt_Some in Hi; lia).
  destruct (reorder_missing nj nm times mi j indices m) as [e He]; [done..|].
  unfold _read_instance. rewrite Htab. cbn. rewrite He. cbn. f_equal.
  unfold reorder in He. eapply mapM_raise_kind; [|exact He].
  intros j' e' Hj'%elem_of_range Hrow. simpl in Hrow.
  eapply mapM_raise_kind; [|exact Hrow].
  intros m' e'' _ Hlook.
  destruct (lookup_lt_is_Some_2 times (Z.to_nat j')) as [line' Hl']; [lia|].
  destruct (Forall2_lookup_l _ _ _ _ _ Hlens Hl') as (indices' & Hi' & Hlen).
  rewrite <- (Z2Nat.id j') in Hlook by lia.
  exact (lookup_time_raise_value times mi (Z.to_nat j') indices' line' m' e''
           Hi' Hl' Hlen Hlook).
Qed.

Lemma missing_index_raises_ValueError_witness :
  _read_instance missing_machine_sample = Raise ValueError.
Proof.
  apply (missing_index_raises_ValueError _ 1 3 [[7; 1; 4]] [[0; 1; 1]]
           0 [0; 1; 1] 2).
  - reflexivity.
  - repeat constructor.
  - reflexivity.
  - lia.
  - intros Hin. repeat (apply elem_of_cons in Hin as [Hin|Hin]; [lia|]).
    by apply elem_of_nil in Hin.
Defined.

(** X16.  Once the header and the two tables are read, the reader returns an
    instance exactly when, for every job [j] of [range(nb_jobs)] and machine
    [m] of [range(nb_machines)], [m] stands on job [j]'s machine line and the
    job's duration line reaches the first position where it stands. *)
Theorem accepted_exactly_when raw nj nm times mi :
  read_tables raw = Ok (nj, nm, times, mi) →
  (∃ pt ms, _read_instance raw = Ok (nj, nm, pt, ms))
  ↔ ∀ j m, 0 ≤ j < nj → 0 ≤ m < nm →
      ∃ p d,
        0 ≤ p
        ∧ at2 mi j p = Ok m
        ∧ (∀ q, 0 ≤ q < p → at2 mi j q ≠ Ok m)
        ∧ at2 times j p = Ok d.
Proof.
  intros Htab. split.
  - intros (pt & ms & Hread) j m Hj Hm.
    apply read_instance_inv in Hread as (times' & mi' & Htab' & Hre & _).
    rewrite Htab in Htab'. injection Htab' as <- <-.
    apply reorder_Ok_rows in Hre.
    destruct (Forall2_lookup_l _ _ _ (Z.to_nat j) j Hre) as (row & _ & Hlook).
    { rewrite lookup_range by lia. f_equal. lia. }
    destruct (Forall2_lookup_l _ _ _ (Z.to_nat m) m Hlook) as (d & _ & Hdm).
    { rewrite lookup_range by lia. f_equal. lia. }
    apply lookup_time_Ok_inv in Hdm
      as (indices & line & p & Hmi & Hline & Hp & Hfirst & Hpd); [|lia].
    exists (Z.of_nat p), d. split_and!.
    + lia.
    + rewrite <- (Z2Nat.id j) by lia. by eapply at2_lookup.
    + intros q Hq (indices' & Hmi' & Hq')%at2_Ok_inv; [|lia..].
      simplify_eq. apply (Hfirst (Z.to_nat q)); [lia | done].
    + rewrite <- (Z2Nat.id j) by lia. by eapply at2_lookup.
  - intros Hall.
    assert (∃ pt, reorder nj nm times mi = Ok pt) as [pt Hpt].
    { unfold reorder. apply mapM_all_Ok. intros j Hj%elem_of_range.
      apply mapM_all_Ok. intros m Hm%elem_of_range.
      destruct (Hall j m Hj Hm) as (p & d & Hp & Hmi & Hfirst & Hd).
      apply at2_Ok_inv in Hmi as (indices & Hi & Hpm); [|lia..].
      apply at2_Ok_inv in Hd as (line & Hl & Hpd); [|lia..].
      exists d. rewrite <- (Z2Nat.id j) by lia.
      eapply (lookup_time_first _ _ _ (Z.to_nat p)); [done.. | | done].
      intros q Hq Hqm. apply (Hfirst (Z.of_nat q)); [lia|].
      rewrite <- (Z2Nat.id j) by lia. by eapply at2_lookup. }
    exists pt, (Py.sum (Py.sum <$> pt)).
    unfold _read_instance. rewrite Htab. cbn. by rewrite Hpt.
Qed.

Lemma accepted_exactly_when_witness :
  (∃ pt ms, _read_instance dup_sample = Ok (1, 2, pt, ms))
  ↔ ∀ j m, 0 ≤ j < 1 → 0 ≤ m < 2 →
      ∃ p d,
        0 ≤ p
        ∧ at2 [[0; 1; 1]] j p = Ok m
        ∧ (∀ q, 0 ≤ q < p → at2 [[0; 1; 1]] j q ≠ Ok m)
        ∧ at2 [[3; 5; 7]] j p = Ok d.
Proof. apply (accepted_exactly_when dup_sample). reflexivity. Defined.

Lemma getitem_take {A} (l : list A) (n : nat) (i : Z) :
  0 ≤ i < Z.of_nat n → Py.getitem (take n l) i = Py.getitem l i.
Proof.
  intros Hi. rewrite !getitem_nonneg by lia. by rewrite lookup_take_lt by lia.
Qed.

Lemma read_header_first_two lines lines' :
  (take 2 ∘ Py.split) <$> lines !! 1%nat
  = (take 2 ∘ Py.split) <$> lines' !! 1%nat →
  read_header lines' = read_header lines.
Proof.
  intros Htok. unfold read_header.
  rewrite !(getitem_nonneg _ 1) by lia. change (Z.to_nat 1) with 1%nat.
  destruct (lines !! 1%nat) as [line|], (lines' !! 1%nat) as [line'|];
    simplify_eq/=; [|done].
  rewrite <- !(getitem_take (Py.split line) 2) by lia.
  rewrite <- !(getitem_take (Py.split line') 2) by lia.
  by rewrite Htok.
Qed.

(** X17.  On the header line only the first two tokens count: two inputs
    that agree on every other line and on the first two tokens of line 1
    read the same. *)
Theorem header_extra_tokens_are_ignored raw raw' :
  (∀ i : nat, i ≠ 1%nat → clean_lines raw !! i = clean_lines raw' !! i) →
  (take 2 ∘ Py.split) <$> clean_lines raw !! 1%nat
  = (take 2 ∘ Py.split) <$> clean_lines raw' !! 1%nat →
  _read_instance raw = _read_instance raw'.
Proof.
  intros Hothers Htok. apply read_instance_agree.
  - by apply read_header_first_two.
  - intros nj nm i _ Hpos. apply Hothers. destruct Hpos; lia.
Qed.

Lemma header_extra_tokens_are_ignored_witness :
  _read_instance sample_2x2 = _read_instance long_header_sample.
Proof.
  apply header_extra_tokens_are_ignored; [|reflexivity].
  intros i Hi.
  destruct i as [|[|[|[|[|[|[|[|i]]]]]]]]; try reflexivity. lia.
Defined.
